(** * datacentric: resumable augmentation preprocessing

    A shallow embedding of [scripts/preprocess_augmentations.py] and
    [scripts/preprocess_outlier_augmentations.py].

    Python [str] values are Rocq [string]s, Python lists are [list]s,
    Python sets are [gset]s, and the file system the scripts talk to is
    a finite map from paths to file contents together with the listing
    of the destination directory.  Everything that can raise returns a
    [result].  [os.path] is taken to be [posixpath]; the transform and
    the write of an archive are taken not to raise, and [os.makedirs]
    to raise on the empty path only. *)

From Stdlib Require Import Ascii String Decimal DecimalString DecimalNat.
From stdpp Require Import base list sorting strings gmap sets.

Open Scope string_scope.
Open Scope nat_scope.

(** Strings are appended with [+:+]; [++] is kept for lists. *)
Disable Notation "_ ++ _" : string_scope.

(** ** Python builtins on [str] *)

Module Py.

(** [s.split(sep)] for a one-character separator: never returns the
    empty list, [''.split('_') == ['']]. *)
Fixpoint split (sep : ascii) (s : string) : list string :=
  match s with
  | "" => [""]
  | String c s' =>
      if Ascii.eqb c sep then "" :: split sep s'
      else match split sep s' with
           | [] => [String c ""]
           | w :: ws => String c w :: ws
           end
  end.

(** [sep.join(ws)]. *)
Definition join (sep : string) (ws : list string) : string :=
  String.concat sep ws.

(** [ws[:-1]]. *)
Definition but_last {A} (ws : list A) : list A := removelast ws.

(** [ws[-1]] on the non-empty list a [split] returns. *)
Definition last_item (ws : list string) : string := List.last ws "".

(** [s.replace(pat, "")] for a non-empty [pat]: occurrences are found
    left to right and do not overlap.  [skip] counts the characters of
    a match that are still to be dropped. *)
Fixpoint delete_all_go (pat : string) (skip : nat) (s : string) : string :=
  match s with
  | "" => ""
  | String c s' =>
      match skip with
      | S k => delete_all_go pat k s'
      | O =>
          if String.prefix pat s
          then delete_all_go pat (String.length pat - 1) s'
          else String c (delete_all_go pat 0 s')
      end
  end.

Definition delete_all (pat s : string) : string := delete_all_go pat 0 s.

(** [format(n, "03d")] for [n >= 0]: decimal digits, padded with
    zeros on the left up to width 3, never truncated. *)
Definition zero_pad (width : nat) (d : uint) : uint :=
  Nat.iter (width - nb_digits d) D0 d.

Definition fmt03d (n : nat) : string :=
  NilEmpty.string_of_uint (zero_pad 3 (Nat.to_uint n)).

End Py.

(** ** [posixpath] *)

Module posixpath.

Definition sep : ascii := "/"%char.

Definition starts_with_sep (p : string) : bool :=
  match p with
  | String c _ => Ascii.eqb c sep
  | "" => false
  end.

Fixpoint ends_with_sep (p : string) : bool :=
  match p with
  | "" => false
  | String c "" => Ascii.eqb c sep
  | String _ p' => ends_with_sep p'
  end.

(** [os.path.join(a, p)] with two arguments. *)
Definition join (a p : string) : string :=
  if starts_with_sep p then p
  else if (String.eqb a "" || ends_with_sep a)%bool then a +:+ p
  else a +:+ "/" +:+ p.

(** [os.path.basename(p)]: what follows the last slash. *)
Definition basename (p : string) : string :=
  Py.last_item (Py.split sep p).

(** [os.path.dirname(p)]: what precedes the last slash, with trailing
    slashes removed unless the head consists of slashes only. *)
Fixpoint all_sep (p : string) : bool :=
  match p with
  | "" => true
  | String c p' => (Ascii.eqb c sep && all_sep p')%bool
  end.

Fixpoint rstrip_sep (p : string) : string :=
  match p with
  | "" => ""
  | String c p' =>
      if all_sep p then "" else String c (rstrip_sep p')
  end.

Definition head_of (p : string) : string :=
  match Py.split sep p with
  | [_] => ""
  | ws => Py.join "/" (Py.but_last ws) +:+ "/"
  end.

Definition dirname (p : string) : string :=
  let head := head_of p in
  if all_sep head then head else rstrip_sep head.

End posixpath.

(** ** Exceptions, results and output *)

Inductive exn :=
| FileNotFoundError (msg : string)
| NotAnArchive (path : string)
| BadArray (key : string)
| AttributeError (attr : string)
| IndexError
| UnboundLocalError (var : string).

Inductive result (A : Type) :=
| Ok (a : A)
| Raise (e : exn).
Arguments Ok {A} a.
Arguments Raise {A} e.

(** [result] is an error monad; stdpp's [x ← r; k] is its bind. *)
Global Instance result_ret : MRet result := λ A a, Ok a.
Global Instance result_bind : MBind result := λ A B k r,
  match r with
  | Ok a => k a
  | Raise e => Raise e
  end.

(** What the scripts write to standard output. *)
Inductive line :=
| PrintError (e : exn)
| PrintName (filename : string)
| PrintFound (n : nat).

(** The message of the error the operating system raises on a path that
    does not exist. *)
Definition errno2 (path : string) : string :=
  "[Errno 2] No such file or directory: '" +:+ path +:+ "'".

(** ** The file system as the scripts see it *)

Section FileSystem.
Context {tensor : Type}.

(** One named array of an archive: it deserializes to a tensor, or
    reading it raises. *)
Inductive member :=
| Array (t : tensor)
| Corrupt.

Record npz := { npz_input : member; npz_label : member }.

(** A file is an archive [np.load] can open, or something it rejects. *)
Inductive file :=
| Archive (a : npz)
| Garbage.

(** [listdir] is what [os.listdir] answers for a directory (no entry:
    the directory does not exist); [disk] is what opening a path
    finds.  Nothing ties the two together, so a name can be listed
    and gone when it is opened. *)
Record fs := { listdir : gmap string (list string); disk : gmap string file }.

Definition os_listdir (w : fs) (d : string) : result (list string) :=
  match listdir w !! d with
  | Some names => Ok names
  | None => Raise (FileNotFoundError (errno2 d))
  end.

Definition os_path_exists (w : fs) (p : string) : bool :=
  bool_decide (is_Some (disk w !! p)).

(** [np.load(p)]: opens the archive, arrays are read on access. *)
Definition np_load (w : fs) (p : string) : result npz :=
  match disk w !! p with
  | None => Raise (FileNotFoundError (errno2 p))
  | Some Garbage => Raise (NotAnArchive p)
  | Some (Archive a) => Ok a
  end.

(** [torch.from_numpy(data[key])]. *)
Definition read_member (key : string) (m : member) : result tensor :=
  match m with
  | Array t => Ok t
  | Corrupt => Raise (BadArray key)
  end.

(** The body both [try] blocks share:
    [image = torch.from_numpy(data["input"]);
     label = torch.from_numpy(data["label"])]. *)
Definition read_arrays (data : npz) : result (tensor * tensor) :=
  image ← read_member "input" (npz_input data);
  label ← read_member "label" (npz_label data);
  Ok (image, label).

End FileSystem.
Arguments member : clear implicits.
Arguments npz : clear implicits.
Arguments file : clear implicits.
Arguments fs : clear implicits.

(** ** What a worker does to the outside world *)

Record file_pair := { fp_image : string; fp_label : string }.

Inductive event (tensor : Type) :=
| Transform (fp : file_pair)
| Detect (image : tensor)
| Makedirs (d : string)
| Acquire
| Savez (path : string) (input label : tensor)
| Release.
Arguments Transform {tensor} fp.
Arguments Detect {tensor} image.
Arguments Makedirs {tensor} d.
Arguments Acquire {tensor}.
Arguments Savez {tensor} path input label.
Arguments Release {tensor}.

(** A worker's state: the files on disk, the state of the random
    generators the transform draws from, and the events so far (oldest
    first). *)
Record world (tensor rng : Type) := {
  w_disk : gmap string (file tensor);
  w_rng : rng;
  w_trace : list (event tensor)
}.
Arguments w_disk {tensor rng} w.
Arguments w_rng {tensor rng} w.
Arguments w_trace {tensor rng} w.

Section Effects.
Context {tensor rng : Type}.

Definition emit (e : event tensor) (w : world tensor rng) : world tensor rng :=
  {| w_disk := w_disk w; w_rng := w_rng w; w_trace := w_trace w ++ [e] |}.

(** [self.transform(file_path)]: one stochastic draw. *)
Definition call_transform
    (transform : file_pair → rng → tensor * tensor * rng)
    (fp : file_pair) (w : world tensor rng) : tensor * tensor * world tensor rng :=
  let '(image, label, g) := transform fp (w_rng w) in
  (image, label,
   {| w_disk := w_disk w; w_rng := g; w_trace := w_trace w ++ [Transform fp] |}).

(** [os.makedirs(d, exist_ok=True)].  The empty path cannot be made:
    [mkdir('')] fails and [''] is no directory, so the
    [FileNotFoundError] is raised again.  Any other directory is taken
    to exist already or to be creatable: a file in the way, missing
    permissions and a full disk are outside the model. *)
Definition os_makedirs (d : string) (w : world tensor rng)
  : result () * world tensor rng :=
  if String.eqb d "" then (Raise (FileNotFoundError (errno2 "")), w)
  else (Ok (), emit (Makedirs d) w).

(** [np.savez_compressed(path, input=image, label=label)]. *)
Definition np_savez_compressed (path : string) (image label : tensor)
    (w : world tensor rng) : world tensor rng :=
  {| w_disk := <[path := Archive {| npz_input := Array image; npz_label := Array label |}]> (w_disk w);
     w_rng := w_rng w;
     w_trace := w_trace w ++ [Savez path image label] |}.

(** [with self.lock: body]. *)
Definition with_lock (body : world tensor rng → world tensor rng)
    (w : world tensor rng) : world tensor rng :=
  emit Release (body (emit Acquire w)).

End Effects.

(** ** Resume state: [np.unique(..., return_counts=True)] *)

(** ["_".join(i.split("_")[:-1])]. *)
Definition archive_prefix (name : string) : string :=
  Py.join "_" (Py.but_last (Py.split "_" name)).

Fixpoint count_insert (x : string) (l : list (string * nat)) : list (string * nat) :=
  match l with
  | [] => [(x, 1)]
  | (y, c) :: l' =>
      match String.compare x y with
      | Eq => (y, S c) :: l'
      | Lt => (x, 1) :: l
      | Gt => (y, c) :: count_insert x l'
      end
  end.

(** The sorted distinct values with the number of times each occurs. *)
Definition np_unique_counts (xs : list string) : list (string * nat) :=
  foldr count_insert [] xs.

(** [list(unique_files[counts == samples_per_file])]. *)
Definition count_complete (samples_per_file : nat) (names : list string) : list string :=
  (filter (λ uc, uc.2 = samples_per_file)
          (np_unique_counts (archive_prefix <$> names))).*1.

(** The collaborators of [autopet3.datacentric.utils] are not part of
    the scripts; they are parameters of the constructors below.
    [read_split] answers the two lists of case identifiers of a fold. *)
Record split_data := { train : list string; val : list string }.

(** ** [scripts/preprocess_augmentations.py] *)

Module Plain.
Section Code.
Context {tensor rng : Type}.

(** The attributes [__init__] sets.  [self.lock] is the one [Lock()]
    of the instance; taking and releasing it shows in the trace. *)
Record ResampleDataset := {
  transform : file_pair → rng → tensor * tensor * rng;
  destination : string;
  root : string;
  samples_per_file : nat;
  files : list file_pair
}.

(** *** [resume_preprocessing] *)

(** The [for j, i in enumerate(valid_files)] loop.  A Python list
    iterator keeps an index and stops when the index reaches the
    current length, so the loop sees what its body appends and skips
    what moves down after a [pop].  [fuel] bounds the number of
    iterations; [None] means it ran out.  With [samples_per_file = 0]
    no prefix is count-complete and the body is never entered, so the
    truncated [samples_per_file - 1] is never formatted. *)
Fixpoint validate (w : fs tensor) (destination : string) (samples_per_file : nat)
    (fuel j : nat) (valid_files : list string) : option (result (list string)) :=
  match fuel with
  | O => None
  | S fuel' =>
      match valid_files !! j with
      | None => Some (Ok valid_files)
      | Some i =>
          let test_file :=
            posixpath.join destination
              (i +:+ "_" +:+ Py.fmt03d (samples_per_file - 1) +:+ ".npz") in
          match np_load w test_file with
          | Raise e => Some (Raise e)
          | Ok data =>
              match read_arrays data with
              | Ok _ =>
                  validate w destination samples_per_file fuel' (S j)
                           (valid_files ++ [test_file])
              | Raise _ =>
                  validate w destination samples_per_file fuel' (S j)
                           (delete j valid_files)
              end
          end
      end
  end.

Definition resume_preprocessing (w : fs tensor) (destination : string)
    (samples_per_file : nat) (fuel : nat) : option (list line * result (list string)) :=
  match os_listdir w destination with
  | Raise e => Some ([], Raise e)
  | Ok names =>
      match validate w destination samples_per_file fuel 0
                     (count_complete samples_per_file names) with
      | None => None
      | Some (Raise e) => Some ([], Raise e)
      | Some (Ok valid_files) =>
          Some ([PrintFound (length valid_files)], Ok valid_files)
      end
  end.

(** *** [__init__] *)

Section Init.
Context (read_split : string → nat → split_data)
        (get_file_dict_nn : string → list string → string → list file_pair)
        (set_determinism : nat → rng).

(** [list(set(train_val_data) - set(valid_files))]: the order of the
    resulting list is the set's. *)
Definition remaining (train_val_data valid_files : list string) : list string :=
  elements (list_to_set train_val_data ∖ list_to_set valid_files : gset string).

Definition init (data_dir split_dir save_path : string)
    (transform : file_pair → rng → tensor * tensor * rng)
    (fold samples_per_file seed : nat) (resume : bool)
    (w : fs tensor) (fuel : nat)
  : option (list line * result (ResampleDataset * rng)) :=
  let g := set_determinism seed in
  let split := read_split split_dir fold in
  let train_val_data := train split ++ val split in
  let self tvd :=
    {| transform := transform; destination := save_path; root := data_dir;
       samples_per_file := samples_per_file;
       files := get_file_dict_nn data_dir tvd ".nii.gz" |} in
  if resume then
    match resume_preprocessing w save_path samples_per_file fuel with
    | None => None
    | Some (out, Raise e) => Some (out, Raise e)
    | Some (out, Ok valid_files) =>
        Some (out, Ok (self (remaining train_val_data valid_files), g))
    end
  else Some ([], Ok (self train_val_data, g)).
End Init.

(** *** [__getitem__] *)

Definition label_base (file_path : file_pair) : string :=
  let label_name :=
    Py.last_item (Py.split "/" (Py.delete_all ".nii.gz" (fp_label file_path))) in
  posixpath.basename label_name.

Definition output_path (self : ResampleDataset) (file_path : file_pair) (i : nat) : string :=
  posixpath.join (destination self)
    (label_base file_path +:+ "_" +:+ Py.fmt03d i +:+ ".npz").

(** One pass through the body of [for i in range(self.samples_per_file)];
    an exception of [os.makedirs] leaves it before the lock is taken. *)
Definition sample (self : ResampleDataset) (file_path : file_pair) (i : nat)
    (w : world tensor rng) : result (tensor * tensor) * world tensor rng :=
  let '(image, label, w) := call_transform (transform self) file_path w in
  let out := output_path self file_path i in
  match os_makedirs (posixpath.dirname out) w with
  | (Raise e, w) => (Raise e, w)
  | (Ok _, w) =>
      let w := with_lock (np_savez_compressed out image label) w in
      (Ok (image, label), w)
  end.

Fixpoint sample_loop (self : ResampleDataset) (file_path : file_pair)
    (range : list nat) (last : option (tensor * tensor)) (w : world tensor rng)
  : result (option (tensor * tensor)) * world tensor rng :=
  match range with
  | [] => (Ok last, w)
  | i :: range' =>
      match sample self file_path i w with
      | (Raise e, w) => (Raise e, w)
      | (Ok s, w) => sample_loop self file_path range' (Some s) w
      end
  end.

(** [return image, label] with no pass through the loop finds the
    names unbound. *)
Definition getitem (self : ResampleDataset) (idx : nat) (w : world tensor rng)
  : result (tensor * tensor) * world tensor rng :=
  match files self !! idx with
  | None => (Raise IndexError, w)
  | Some file_path =>
      match sample_loop self file_path (seq 0 (samples_per_file self)) None w with
      | (Raise e, w) => (Raise e, w)
      | (Ok (Some s), w) => (Ok s, w)
      | (Ok None, w) => (Raise (UnboundLocalError "image"), w)
      end
  end.

(** *** [test_integrity] *)

Fixpoint scan (w : fs tensor) (dir_path : string) (names : list string)
  : list line * result () :=
  match names with
  | [] => ([], Ok ())
  | filename :: rest =>
      let file_path := posixpath.join dir_path filename in
      if negb (os_path_exists w file_path) then
        ([], Raise (FileNotFoundError
                      ("File '" +:+ filename +:+ "' does not exist in directory.")))
      else
        match np_load w file_path with
        | Raise e => ([], Raise e)
        | Ok data =>
            match read_arrays data with
            | Ok _ => scan w dir_path rest
            | Raise e =>
                let '(out, r) := scan w dir_path rest in
                (PrintError e :: PrintName filename :: out, r)
            end
        end
  end.

Definition test_integrity (w : fs tensor) (dir_path : string) : list line * result () :=
  match os_listdir w dir_path with
  | Raise e => ([], Raise e)
  | Ok names => scan w dir_path names
  end.

End Code.
Arguments ResampleDataset : clear implicits.
End Plain.

(** ** [scripts/preprocess_outlier_augmentations.py] *)

Module Outlier.
Section Code.
Context {tensor rng : Type}.

(** The attributes of an instance.  [outlier_detection_fn] is read by
    [__getitem__]; [None] says the instance has no attribute of that
    name, [Some None] that it is bound to Python's [None], and
    [Some (Some f)] that it is bound to the predicate [f]. *)
Record ResampleDataset := {
  transform : file_pair → rng → tensor * tensor * rng;
  destination : string;
  root : string;
  samples_per_file : nat;
  files : list file_pair;
  outlier_detection_fn : option (option (tensor → bool))
}.

(** *** [resume_preprocessing], the same text as in the other script *)

Fixpoint validate (w : fs tensor) (destination : string) (samples_per_file : nat)
    (fuel j : nat) (valid_files : list string) : option (result (list string)) :=
  match fuel with
  | O => None
  | S fuel' =>
      match valid_files !! j with
      | None => Some (Ok valid_files)
      | Some i =>
          let test_file :=
            posixpath.join destination
              (i +:+ "_" +:+ Py.fmt03d (samples_per_file - 1) +:+ ".npz") in
          match np_load w test_file with
          | Raise e => Some (Raise e)
          | Ok data =>
              match read_arrays data with
              | Ok _ =>
                  validate w destination samples_per_file fuel' (S j)
                           (valid_files ++ [test_file])
              | Raise _ =>
                  validate w destination samples_per_file fuel' (S j)
                           (delete j valid_files)
              end
          end
      end
  end.

Definition resume_preprocessing (w : fs tensor) (destination : string)
    (samples_per_file : nat) (fuel : nat) : option (list line * result (list string)) :=
  match os_listdir w destination with
  | Raise e => Some ([], Raise e)
  | Ok names =>
      match validate w destination samples_per_file fuel 0
                     (count_complete samples_per_file names) with
      | None => None
      | Some (Raise e) => Some ([], Raise e)
      | Some (Ok valid_files) =>
          Some ([PrintFound (length valid_files)], Ok valid_files)
      end
  end.

(** *** [__init__] *)

Section Init.
Context (read_split : string → nat → split_data)
        (get_file_dict_nn : string → list string → string → list file_pair)
        (set_determinism : nat → rng).

Definition remaining (train_val_data valid_files : list string) : list string :=
  elements (list_to_set train_val_data ∖ list_to_set valid_files : gset string).

(** The split is read from [data_dir/splits_final.json] at fold 0
    whatever [split_dir] and [fold] are.  The parameter
    [outlier_detection_fn] is accepted and not assigned to [self]:
    no statement of the body mentions it. *)
Definition init (data_dir split_dir save_path : string)
    (transform : file_pair → rng → tensor * tensor * rng)
    (fold samples_per_file seed : nat) (resume : bool)
    (outlier_detection_fn : option (tensor → bool))
    (w : fs tensor) (fuel : nat)
  : option (list line * result (ResampleDataset * rng)) :=
  let g := set_determinism seed in
  let split := read_split (posixpath.join data_dir "splits_final.json") 0 in
  let train_val_data := train split ++ val split in
  let self tvd :=
    {| transform := transform; destination := save_path; root := data_dir;
       samples_per_file := samples_per_file;
       files := get_file_dict_nn data_dir tvd ".nii.gz";
       outlier_detection_fn := None |} in
  if resume then
    match resume_preprocessing w save_path samples_per_file fuel with
    | None => None
    | Some (out, Raise e) => Some (out, Raise e)
    | Some (out, Ok valid_files) =>
        Some (out, Ok (self (remaining train_val_data valid_files), g))
    end
  else Some ([], Ok (self train_val_data, g)).
End Init.

(** *** [__getitem__] *)

Definition label_name (file_path : file_pair) : string :=
  Py.last_item (Py.split "/" (Py.delete_all ".nii.gz" (fp_label file_path))).

Definition output_path (self : ResampleDataset) (file_path : file_pair) (i : nat) : string :=
  posixpath.join (destination self)
    (label_name file_path +:+ "_" +:+ Py.fmt03d i +:+ ".npz").

(** [self.outlier_detection_fn is not None and
    self.outlier_detection_fn(image)]: whether the draw is skipped. *)
Definition rejected (self : ResampleDataset) (image : tensor)
    (w : world tensor rng) : result bool * world tensor rng :=
  match outlier_detection_fn self with
  | None => (Raise (AttributeError "outlier_detection_fn"), w)
  | Some None => (Ok false, w)
  | Some (Some detect) => (Ok (detect image), emit (Detect image) w)
  end.

(** One pass through the loop body; a rejected draw [continue]s. *)
Definition sample (self : ResampleDataset) (file_path : file_pair) (i : nat)
    (w : world tensor rng) : result (tensor * tensor) * world tensor rng :=
  let '(image, label, w) := call_transform (transform self) file_path w in
  match rejected self image w with
  | (Raise e, w) => (Raise e, w)
  | (Ok true, w) => (Ok (image, label), w)
  | (Ok false, w) =>
      let out := output_path self file_path i in
      match os_makedirs (posixpath.dirname out) w with
      | (Raise e, w) => (Raise e, w)
      | (Ok _, w) =>
          let w := with_lock (np_savez_compressed out image label) w in
          (Ok (image, label), w)
      end
  end.

Fixpoint sample_loop (self : ResampleDataset) (file_path : file_pair)
    (range : list nat) (last : option (tensor * tensor)) (w : world tensor rng)
  : result (option (tensor * tensor)) * world tensor rng :=
  match range with
  | [] => (Ok last, w)
  | i :: range' =>
      match sample self file_path i w with
      | (Raise e, w) => (Raise e, w)
      | (Ok s, w) => sample_loop self file_path range' (Some s) w
      end
  end.

Definition getitem (self : ResampleDataset) (idx : nat) (w : world tensor rng)
  : result (tensor * tensor) * world tensor rng :=
  match files self !! idx with
  | None => (Raise IndexError, w)
  | Some file_path =>
      match sample_loop self file_path (seq 0 (samples_per_file self)) None w with
      | (Raise e, w) => (Raise e, w)
      | (Ok (Some s), w) => (Ok s, w)
      | (Ok None, w) => (Raise (UnboundLocalError "image"), w)
      end
  end.

(** *** [test_integrity], the same text as in the other script *)

Fixpoint scan (w : fs tensor) (dir_path : string) (names : list string)
  : list line * result () :=
  match names with
  | [] => ([], Ok ())
  | filename :: rest =>
      let file_path := posixpath.join dir_path filename in
      if negb (os_path_exists w file_path) then
        ([], Raise (FileNotFoundError
                      ("File '" +:+ filename +:+ "' does not exist in directory.")))
      else
        match np_load w file_path with
        | Raise e => ([], Raise e)
        | Ok data =>
            match read_arrays data with
            | Ok _ => scan w dir_path rest
            | Raise e =>
                let '(out, r) := scan w dir_path rest in
                (PrintError e :: PrintName filename :: out, r)
            end
        end
  end.

Definition test_integrity (w : fs tensor) (dir_path : string) : list line * result () :=
  match os_listdir w dir_path with
  | Raise e => ([], Raise e)
  | Ok names => scan w dir_path names
  end.

End Code.
Arguments ResampleDataset : clear implicits.
End Outlier.

(** ** Reading a trace *)

Section Traces.
Context {tensor : Type}.

(** The paths written, oldest first. *)
Definition written (tr : list (event tensor)) : list string :=
  omap (λ e, match e with Savez p _ _ => Some p | _ => None end) tr.

(** The images handed to the outlier predicate, oldest first. *)
Definition detected (tr : list (event tensor)) : list tensor :=
  omap (λ e, match e with Detect x => Some x | _ => None end) tr.

(** Each event paired with whether the lock is held while it happens
    ([Acquire] and [Release] themselves count as outside). *)
Fixpoint under_lock (held : bool) (tr : list (event tensor))
  : list (bool * event tensor) :=
  match tr with
  | [] => []
  | Acquire :: tr' => (false, Acquire) :: under_lock true tr'
  | Release :: tr' => (false, Release) :: under_lock false tr'
  | e :: tr' => (held, e) :: under_lock held tr'
  end.

Definition is_acquire (e : event tensor) : bool :=
  match e with Acquire => true | _ => false end.

Definition critical_sections (tr : list (event tensor)) : nat :=
  length (filter (λ e, is_acquire e) tr).

End Traces.

(** ** Reading the table of [np.unique] *)

(** How often [p] occurs in [xs]. *)
Definition occurrences (p : string) (xs : list string) : nat :=
  length (filter (λ x, x = p) xs).

(** The count the table holds for [p], 0 when it holds none. *)
Fixpoint table_count (p : string) (T : list (string * nat)) : nat :=
  match T with
  | [] => 0
  | (y, c) :: T' => if String.eqb p y then c else table_count p T'
  end.

(** Keys in strictly increasing order. *)
Fixpoint increasing (T : list (string * nat)) : Prop :=
  match T with
  | [] => True
  | (y, _) :: T' => Forall (λ e, String.compare y e.1 = Lt) T' ∧ increasing T'
  end.

(** ** What one call of [__getitem__] is expected to leave behind *)

Section Expected.
Context {tensor rng : Type}.

(** The samples [n] successive calls of the transform draw, starting
    from the generator state [g]. *)
Fixpoint draws (transform : file_pair → rng → tensor * tensor * rng)
    (fp : file_pair) (n : nat) (g : rng) : list (tensor * tensor) :=
  match n with
  | O => []
  | S n' =>
      let '(image, label, g') := transform fp g in
      (image, label) :: draws transform fp n' g'
  end.

(** The events of one pass of the loop of the plain script that draws
    the sample [s] for slot [i]. *)
Definition sample_events (self : Plain.ResampleDataset tensor rng)
    (fp : file_pair) (i : nat) (s : tensor * tensor) : list (event tensor) :=
  let out := Plain.output_path self fp i in
  [Transform fp; Makedirs (posixpath.dirname out); Acquire; Savez out s.1 s.2; Release].


(** The write is inside the lock, the directory creation outside. *)
Definition write_locked_mkdir_unlocked (he : bool * event tensor) : bool :=
  match he.2 with
  | Savez _ _ _ => he.1
  | Makedirs _ => negb he.1
  | _ => true
  end.

(** The events a call adds to the trace of the world it starts from. *)
Definition new_events (before after : world tensor rng) : list (event tensor) :=
  drop (length (w_trace before)) (w_trace after).

End Expected.

(** ** Label names *)

(** What both scripts compute from the label path before anything else:
    [str(label).replace(".nii.gz", "").split("/")[-1]]. *)
Definition replaced_label_name (label : string) : string :=
  Py.last_item (Py.split "/" (Py.delete_all ".nii.gz" label)).

(** [pat] occurs in [s] at the very end or not at all. *)
Fixpoint nowhere_but_end (pat s : string) : bool :=
  match s with
  | "" => true
  | String _ s' =>
      if String.prefix pat s then String.eqb s pat else nowhere_but_end pat s'
  end.

(** ** The words of the specification, for comparison *)

(** [s] minus its ending [suffix], when it ends so. *)
Fixpoint strip_suffix (suffix s : string) : string :=
  match s with
  | "" => ""
  | String c s' => if String.eqb s suffix then "" else String c (strip_suffix suffix s')
  end.

(** "the label filename with its volume-format suffix stripped and path
    components removed". *)
Definition spec_label_base (label : string) : string :=
  strip_suffix ".nii.gz" (posixpath.basename label).

(** "[{label_base}_{i:03d}.npz]". *)
Definition archive_name (label_base : string) (i : nat) : string :=
  label_base +:+ "_" +:+ Py.fmt03d i +:+ ".npz".

(** ** A measure for the validation loop *)

Section Measure.
Context {tensor : Type} (w : fs tensor).

(** No path on disk is longer than this. *)
Definition longest_path : nat :=
  max_list (String.length <$> (map_to_list (disk w)).*1).

(** How much longer a list entry may still get. *)
Definition slack (e : string) : nat := S longest_path - String.length e.

(** What the entries from index [j] on may still grow by, in total. *)
Definition pending (j : nat) (l : list string) : nat :=
  sum_list_with slack (drop j l).

End Measure.

(** ** What the verifier is expected to print *)

Section Reports.
Context {tensor : Type} (w : fs tensor) (dir_path : string).

(** [np.load] opens the file of this name. *)
Definition opens (filename : string) : bool :=
  match np_load w (posixpath.join dir_path filename) with
  | Ok _ => true
  | Raise _ => false
  end.

(** The two lines printed for a file whose arrays do not deserialize. *)
Definition report (filename : string) : list line :=
  match np_load w (posixpath.join dir_path filename) with
  | Ok data =>
      match read_arrays data with
      | Ok _ => []
      | Raise e => [PrintError e; PrintName filename]
      end
  | Raise _ => []
  end.

Definition reports (names : list string) : list line :=
  concat (report <$> names).

End Reports.

(** ** Concrete directories and datasets *)

Module Fixtures.

(** An archive whose arrays both deserialize, and one that opens but
    whose [label] array does not deserialize. *)
Definition intact : file nat :=
  Archive {| npz_input := Array 1; npz_label := Array 2 |}.
Definition damaged : file nat :=
  Archive {| npz_input := Array 1; npz_label := Corrupt |}.

(** [out] does not exist. *)
Definition no_directory : fs nat := {| listdir := ∅; disk := ∅ |}.

(** [out] holds the one archive of case [a], intact. *)
Definition one_complete : fs nat :=
  {| listdir := {[ "out" := ["a_000.npz"] ]};
     disk := {[ "out/a_000.npz" := intact ]} |}.

(** [a] is intact, [b] is not. *)
Definition intact_then_damaged : fs nat :=
  {| listdir := {[ "out" := ["a_000.npz"; "b_000.npz"] ]};
     disk := {[ "out/a_000.npz" := intact; "out/b_000.npz" := damaged ]} |}.

(** Neither [a] nor [b] is intact. *)
Definition both_damaged : fs nat :=
  {| listdir := {[ "out" := ["a_000.npz"; "b_000.npz"] ]};
     disk := {[ "out/a_000.npz" := damaged; "out/b_000.npz" := damaged ]} |}.

(** [a_000.npz] is listed and gone, [b_000.npz] is there and damaged. *)
Definition listed_but_gone : fs nat :=
  {| listdir := {[ "out" := ["a_000.npz"; "b_000.npz"] ]};
     disk := {[ "out/b_000.npz" := damaged ]} |}.

(** Stand-ins for the collaborators: a split with the cases [a] and
    [b], files laid out as [data_dir/labelsTr/case.nii.gz], a transform
    that numbers its draws, and a generator seeded with the seed itself. *)
Definition read_split (split_dir : string) (fold : nat) : split_data :=
  {| train := ["a"]; val := ["b"] |}.

Definition get_file_dict_nn (data_dir : string) (cases : list string)
    (suffix : string) : list file_pair :=
  (λ c, {| fp_image := data_dir +:+ "/imagesTr/" +:+ c +:+ "_0000" +:+ suffix;
           fp_label := data_dir +:+ "/labelsTr/" +:+ c +:+ suffix |}) <$> cases.

Definition transform (fp : file_pair) (g : nat) : nat * nat * nat :=
  (g, 100 + g, S g).

Definition set_determinism (seed : nat) : nat := seed.

Definition case_a : file_pair :=
  {| fp_image := "data/imagesTr/a_0000.nii.gz"; fp_label := "data/labelsTr/a.nii.gz" |}.

(** A label whose file name carries the suffix twice. *)
Definition case_v2 : file_pair :=
  {| fp_image := "data/imagesTr/scan_0000.nii.gz";
     fp_label := "data/labelsTr/scan.nii.gz_v2.nii.gz" |}.

Definition plain_dataset : Plain.ResampleDataset nat nat :=
  {| Plain.transform := transform; Plain.destination := "out"; Plain.root := "data";
     Plain.samples_per_file := 2; Plain.files := [case_a; case_v2] |}.

Definition fresh : world nat nat :=
  {| w_disk := ∅; w_rng := 42; w_trace := [] |}.

(** The dataset the constructor of the outlier script builds when it is
    handed the predicate [filter] (or [None]), two samples per file and
    no resume. *)
Definition outlier_built (filter : option (nat → bool))
  : option (list line * result (Outlier.ResampleDataset nat nat * nat)) :=
  Outlier.init read_split get_file_dict_nn set_determinism
    "data" "splits.json" "out" transform 0 2 42 false filter no_directory 0.

(** An instance of the outlier script whose attribute is bound, which
    the constructor never produces. *)
Definition outlier_dataset (filter : option (nat → bool)) : Outlier.ResampleDataset nat nat :=
  {| Outlier.transform := transform; Outlier.destination := "out";
     Outlier.root := "data"; Outlier.samples_per_file := 2;
     Outlier.files := [case_a; case_v2];
     Outlier.outlier_detection_fn := Some filter |}.

End Fixtures.

(** ** More vocabulary for the loops *)

(** The [test_file] the validation loop builds for the entry [i]. *)
Definition probe (destination : string) (samples_per_file : nat) (i : string) : string :=
  posixpath.join destination
    (i +:+ "_" +:+ Py.fmt03d (samples_per_file - 1) +:+ ".npz").

(** The entries at the odd positions 1, 3, 5, ... of a list. *)
Fixpoint odds {A} (l : list A) : list A :=
  match l with
  | _ :: y :: l' => y :: odds l'
  | _ => []
  end.

Section MoreFileSystem.
Context {tensor : Type}.

(** The archive at [p] opens and reading its arrays raises. *)
Definition reads_damaged (w : fs tensor) (p : string) : bool :=
  match np_load w p with
  | Ok data => match read_arrays data with Ok _ => false | Raise _ => true end
  | Raise _ => false
  end.

(** The archive at [p] opens and both its arrays deserialize. *)
Definition reads_intact (w : fs tensor) (p : string) : bool :=
  match np_load w p with
  | Ok data => match read_arrays data with Ok _ => true | Raise _ => false end
  | Raise _ => false
  end.

(** No archive [np.load] opens has an array that fails to deserialize. *)
Definition sound_file (f : file tensor) : bool :=
  match f with
  | Archive a => match read_arrays a with Ok _ => true | Raise _ => false end
  | Garbage => true
  end.

Definition sound_disk (w : fs tensor) : bool :=
  forallb (λ pf, sound_file pf.2) (map_to_list (disk w)).

End MoreFileSystem.

Section MoreExpected.
Context {tensor rng : Type}.

(** The generator state after [n] successive draws. *)
Fixpoint rng_after (transform : file_pair → rng → tensor * tensor * rng)
    (fp : file_pair) (n : nat) (g : rng) : rng :=
  match n with
  | O => g
  | S n' => rng_after transform fp n' (transform fp g).2
  end.

(** Whether the draw [image] is persisted when the attribute
    [outlier_detection_fn] is bound to [filter]. *)
Definition persisted (filter : option (tensor → bool)) (image : tensor) : bool :=
  match filter with
  | Some detect => negb (detect image)
  | None => true
  end.

(** The slots, counted from [start], of the draws that are persisted. *)
Fixpoint persisted_slots (filter : option (tensor → bool)) (start : nat)
    (ss : list (tensor * tensor)) : list nat :=
  match ss with
  | [] => []
  | s :: ss' =>
      if persisted filter s.1
      then start :: persisted_slots filter (S start) ss'
      else persisted_slots filter (S start) ss'
  end.

(** The file pairs the transform was called on, oldest first. *)
Definition transformed (tr : list (event tensor)) : list file_pair :=
  omap (λ e, match e with Transform fp => Some fp | _ => None end) tr.

(** What [return image, label] answers after the draws [ss]. *)
Definition returned (ss : list (tensor * tensor)) : result (tensor * tensor) :=
  from_option Ok (Raise (UnboundLocalError "image")) (last ss).

(** The images a bound attribute is called on. *)
Definition consulted (filter : option (tensor → bool))
    (ss : list (tensor * tensor)) : list tensor :=
  match filter with
  | Some _ => ss.*1
  | None => []
  end.

End MoreExpected.

(** ** The driver of the outlier script *)

Section OutlierDriver.
Context {tensor rng : Type}.

(** [__len__]. *)
Definition outlier_len (self : Outlier.ResampleDataset tensor rng) : nat :=
  length (Outlier.files self).

(** The loop [for _ in tqdm(dataloader, total=len(dataloader)): pass]
    of the outlier script.  Its [DataLoader] has batch size 1, no
    shuffling and [num_workers = 0]: the items are fetched in index
    order in the calling process, one [__getitem__] per index, and an
    exception of [__getitem__] leaves the loop. *)
Fixpoint outlier_fetch (self : Outlier.ResampleDataset tensor rng) (idxs : list nat)
    (w : world tensor rng) : result () * world tensor rng :=
  match idxs with
  | [] => (Ok (), w)
  | idx :: rest =>
      match Outlier.getitem self idx w with
      | (Raise e, w) => (Raise e, w)
      | (Ok _, w) => outlier_fetch self rest w
      end
  end.

Definition outlier_epoch (self : Outlier.ResampleDataset tensor rng)
    (w : world tensor rng) : result () * world tensor rng :=
  outlier_fetch self (seq 0 (outlier_len self)) w.

End OutlierDriver.

Module MoreFixtures.

(** [out] exists and is empty. *)
Definition empty_directory : fs nat := {| listdir := {[ "out" := [] ]}; disk := ∅ |}.

(** [a_000.npz] is not an archive, the damaged [b_000.npz] follows. *)
Definition garbage_first : fs nat :=
  {| listdir := {[ "out" := ["a_000.npz"; "b_000.npz"] ]};
     disk := {[ "out/a_000.npz" := Garbage; "out/b_000.npz" := Fixtures.damaged ]} |}.

(** Two intact archives. *)
Definition all_intact : fs nat :=
  {| listdir := {[ "out" := ["a_000.npz"; "b_000.npz"] ]};
     disk := {[ "out/a_000.npz" := Fixtures.intact; "out/b_000.npz" := Fixtures.intact ]} |}.

(** Case [a] has two archives, but not the one of the last slot. *)
Definition wrong_indices : fs nat :=
  {| listdir := {[ "out" := ["a_000.npz"; "a_005.npz"] ]};
     disk := {[ "out/a_000.npz" := Fixtures.intact; "out/a_005.npz" := Fixtures.intact ]} |}.


(** The damaged [a_000.npz] comes first, then a [b_000.npz] that is not
    an archive, then the damaged [c_000.npz]. *)
Definition damaged_then_garbage : fs nat :=
  {| listdir := {[ "out" := ["a_000.npz"; "b_000.npz"; "c_000.npz"] ]};
     disk := {[ "out/a_000.npz" := Fixtures.damaged; "out/b_000.npz" := Garbage;
                "out/c_000.npz" := Fixtures.damaged ]} |}.

(** The plain dataset with the empty string as its destination. *)
Definition no_destination : Plain.ResampleDataset nat nat :=
  {| Plain.transform := Fixtures.transform; Plain.destination := ""; Plain.root := "data";
     Plain.samples_per_file := 2; Plain.files := [Fixtures.case_a; Fixtures.case_v2] |}.

End MoreFixtures.

(** * Properties *)

(** ** The builtins on examples *)

Example split_ex : Py.split "_" "fdg_0af7_003.npz" = ["fdg"; "0af7"; "003.npz"].
Proof. reflexivity. Qed.
Example split_empty : Py.split "_" "" = [""].
Proof. reflexivity. Qed.
Example prefix_ex :
  Py.join "_" (Py.but_last (Py.split "_" "fdg_0af7_003.npz")) = "fdg_0af7".
Proof. reflexivity. Qed.
Example prefix_none : Py.join "_" (Py.but_last (Py.split "_" "README")) = "".
Proof. reflexivity. Qed.
Example delete_ex : Py.delete_all ".nii.gz" "/d/x.nii.gz_v2.nii.gz" = "/d/x_v2".
Proof. reflexivity. Qed.
Example delete_ex2 : Py.delete_all ".nii.gz" "x.nii.nii.gz.gz" = "x.nii.gz".
Proof. reflexivity. Qed.
Example fmt_ex : map Py.fmt03d [0; 7; 42; 123; 1000] = ["000"; "007"; "042"; "123"; "1000"].
Proof. reflexivity. Qed.
Example join_ex : posixpath.join "out" "a_000.npz" = "out/a_000.npz".
Proof. reflexivity. Qed.
Example join_abs : posixpath.join "/out" "/out/a_000.npz_000.npz" = "/out/a_000.npz_000.npz".
Proof. reflexivity. Qed.
Example join_slash : posixpath.join "out/" "a" = "out/a".
Proof. reflexivity. Qed.
Example dirname_ex : map posixpath.dirname ["out/a_000.npz"; "a"; "/a"; "//a"; "x//a"; "/x/y/a"; "x/"] = ["out"; ""; "/"; "//"; "x"; "/x/y"; "x"].
Proof. reflexivity. Qed.
Example basename_ex : map posixpath.basename ["out/a_000.npz"; "a"; "/a"; "x/"] = ["a_000.npz"; "a"; "a"; ""].
Proof. reflexivity. Qed.

(** ** Strings and paths *)

Lemma string_length_app (s t : string) :
  String.length (s +:+ t) = String.length s + String.length t.
Proof. induction s as [|c s IH]; simpl; [done | by rewrite IH]. Qed.

Lemma join_length_ge (a p : string) :
  String.length p ≤ String.length (posixpath.join a p).
Proof.
  unfold posixpath.join.
  destruct (posixpath.starts_with_sep p); [done|].
  destruct (_ || _)%bool; rewrite !string_length_app; lia.
Qed.

(** The path [resume_preprocessing] probes for an entry of its list is
    strictly longer than the entry. *)
Lemma test_file_longer (dest i : string) (n : nat) :
  String.length i <
  String.length (posixpath.join dest (i +:+ "_" +:+ Py.fmt03d n +:+ ".npz")).
Proof.
  eapply Nat.lt_le_trans; [|apply join_length_ge].
  rewrite !string_length_app. simpl. lia.
Qed.

Lemma string_app_cons (c : ascii) (s t : string) :
  String c s +:+ t = String c (s +:+ t).
Proof. reflexivity. Qed.

Lemma string_app_nil_l (t : string) : "" +:+ t = t.
Proof. reflexivity. Qed.

Lemma string_app_nil_r (s : string) : s +:+ "" = s.
Proof. induction s as [|c s IH]; [done | by rewrite string_app_cons, IH]. Qed.

Lemma string_app_assoc (s t u : string) : (s +:+ t) +:+ u = s +:+ t +:+ u.
Proof. induction s as [|c s IH]; [done | by rewrite !string_app_cons, IH]. Qed.

Lemma string_app_inv_r (t s s' : string) : s +:+ t = s' +:+ t → s = s'.
Proof.
  revert s'. induction s as [|c s IH]; intros [|c' s'] H.
  - done.
  - apply (f_equal String.length) in H.
    rewrite !string_length_app in H. simpl in H. lia.
  - apply (f_equal String.length) in H.
    rewrite !string_length_app in H. simpl in H. lia.
  - rewrite !string_app_cons in H. injection H as -> H. f_equal. by apply IH.
Qed.

(** *** [split] *)

Lemma split_not_nil (sep : ascii) (s : string) : Py.split sep s ≠ [].
Proof.
  destruct s as [|c s]; simpl; [done|].
  destruct (Ascii.eqb c sep); [done|]. by destruct (Py.split sep s).
Qed.

(** A string free of [sep] is its own single component, and conversely. *)
Lemma split_single_eq (sep : ascii) (s x : string) :
  Py.split sep s = [x] → x = s.
Proof.
  revert x. induction s as [|c s IH]; intros x; simpl.
  - by intros [= <-].
  - destruct (Ascii.eqb c sep).
    + intros [= _ H]. by destruct (split_not_nil sep s).
    + destruct (Py.split sep s) as [|w ws] eqn:E; [by destruct (split_not_nil sep s)|].
      intros [= <- ->]. f_equal. by apply IH.
Qed.

Lemma split_cons_other (sep c : ascii) (s : string) :
  Ascii.eqb c sep = false →
  ∃ w ws, Py.split sep s = w :: ws ∧ Py.split sep (String c s) = String c w :: ws.
Proof.
  intros Hc. simpl. rewrite Hc.
  destruct (Py.split sep s) as [|w ws] eqn:E; [by destruct (split_not_nil sep s)|].
  by exists w, ws.
Qed.

(** Splitting at a separator between two strings splits both. *)
Lemma split_app_sep (sep : ascii) (s t : string) :
  Py.split sep (s +:+ String sep t) = Py.split sep s ++ Py.split sep t.
Proof.
  induction s as [|c s IH]; rewrite ?string_app_cons; simpl.
  - by rewrite Ascii.eqb_refl.
  - destruct (Ascii.eqb c sep); [by rewrite IH|].
    rewrite IH. destruct (Py.split sep s) as [|w ws] eqn:E; [|done].
    by destruct (split_not_nil sep s).
Qed.

(** Appending a string free of [sep] extends the last component. *)
Lemma split_app_free (sep : ascii) (s t : string) :
  Py.split sep t = [t] →
  ∃ ws x, Py.split sep s = ws ++ [x]
          ∧ Py.split sep (s +:+ t) = ws ++ [x +:+ t].
Proof.
  intros Ht. induction s as [|c s (ws & x & Hs & Hst)].
  - exists [], "". by rewrite !string_app_nil_l, Ht.
  - rewrite string_app_cons. simpl. destruct (Ascii.eqb c sep).
    + exists ("" :: ws), x. by rewrite Hs, Hst.
    + rewrite Hs, Hst. destruct ws as [|w ws]; simpl.
      * by exists [], (String c x).
      * by exists (String c w :: ws), x.
Qed.

(** Every component of a split is free of the separator. *)
Lemma split_components_free (sep : ascii) (s : string) :
  Forall (λ w, Py.split sep w = [w]) (Py.split sep s).
Proof.
  induction s as [|c s IH]; simpl; [by repeat constructor|].
  destruct (Ascii.eqb c sep) eqn:Hc; [by constructor|].
  destruct (Py.split sep s) as [|w ws]; [repeat constructor; simpl; by rewrite Hc|].
  inversion_clear IH as [|?? Hw Hws]. constructor; [|done].
  simpl. by rewrite Hc, Hw.
Qed.

Lemma last_item_snoc (ws : list string) (x : string) :
  Py.last_item (ws ++ [x]) = x.
Proof. unfold Py.last_item. apply last_last. Qed.

Lemma last_item_free (sep : ascii) (s : string) :
  Py.split sep (Py.last_item (Py.split sep s)) = [Py.last_item (Py.split sep s)].
Proof.
  pose proof (split_components_free sep s) as H.
  destruct (exists_last (split_not_nil sep s)) as (ws & x & E).
  rewrite E in *. rewrite last_item_snoc.
  by apply Forall_app in H as [_ [H _]%Forall_cons].
Qed.

Lemma concat_cons2 (sep x y : string) (l : list string) :
  String.concat sep (x :: y :: l) = x +:+ sep +:+ String.concat sep (y :: l).
Proof. reflexivity. Qed.

Lemma join_split (sep : ascii) (s : string) :
  Py.join (String sep "") (Py.split sep s) = s.
Proof.
  unfold Py.join. induction s as [|c s IH]; [done|].
  cbn [Py.split].
  destruct (Py.split sep s) as [|w ws] eqn:E; [by destruct (split_not_nil sep s)|].
  destruct (Ascii.eqb c sep) eqn:Hc.
  - apply Ascii.eqb_eq in Hc as ->. by rewrite concat_cons2, IH.
  - destruct ws as [|w' ws].
    + simpl in *. by rewrite IH.
    + rewrite concat_cons2 in *. by rewrite string_app_cons, IH.
Qed.

(** The basename of a basename is itself. *)
Lemma basename_idem (s : string) :
  posixpath.basename (posixpath.basename s) = posixpath.basename s.
Proof. unfold posixpath.basename. by rewrite last_item_free. Qed.

(** *** Archive names *)

(** What [resume_preprocessing] strips from a listed name gives back
    what [__getitem__] put in front of the index. *)
Lemma archive_prefix_app (b t : string) :
  Py.split "_" t = [t] → archive_prefix (b +:+ "_" +:+ t) = b.
Proof.
  intros Ht. unfold archive_prefix, Py.but_last.
  change (b +:+ "_" +:+ t) with (b +:+ String "_" t).
  rewrite split_app_sep, Ht, removelast_last.
  apply (join_split "_").
Qed.

Lemma digits_free_of_underscore (d : uint) :
  Py.split "_" (NilEmpty.string_of_uint d +:+ ".npz")
  = [NilEmpty.string_of_uint d +:+ ".npz"].
Proof.
  induction d as [|d IH|d IH|d IH|d IH|d IH|d IH|d IH|d IH|d IH|d IH];
    [reflexivity|..];
    cbn [NilEmpty.string_of_uint]; rewrite string_app_cons;
    cbn [Py.split Ascii.eqb Bool.eqb]; by rewrite IH.
Qed.

Lemma name_prefix (b : string) (i : nat) :
  archive_prefix (b +:+ "_" +:+ Py.fmt03d i +:+ ".npz") = b.
Proof. apply archive_prefix_app, digits_free_of_underscore. Qed.

(** Padding with zeros does not change the number denoted. *)
Lemma of_uint_zero_pad (width : nat) (d : uint) :
  Nat.of_uint (Py.zero_pad width d) = Nat.of_uint d.
Proof.
  unfold Py.zero_pad. induction (width - nb_digits d) as [|n IH]; [done|].
  simpl. exact IH.
Qed.

Lemma string_of_uint_inj (d d' : uint) :
  NilEmpty.string_of_uint d = NilEmpty.string_of_uint d' → d = d'.
Proof.
  intros H. apply (f_equal NilEmpty.uint_of_string) in H.
  rewrite !NilEmpty.usu in H. by injection H.
Qed.

Lemma fmt03d_inj (i j : nat) : Py.fmt03d i = Py.fmt03d j → i = j.
Proof.
  intros H%string_of_uint_inj.
  apply (f_equal Nat.of_uint) in H.
  by rewrite !of_uint_zero_pad, !DecimalNat.Unsigned.of_to in H.
Qed.

(** The index in a name reads back as the slot, and takes at least
    three characters. *)
Lemma fmt03d_parses (i : nat) :
  Nat.of_uint <$> NilEmpty.uint_of_string (Py.fmt03d i) = Some i.
Proof.
  unfold Py.fmt03d. rewrite NilEmpty.usu. simpl.
  by rewrite of_uint_zero_pad, DecimalNat.Unsigned.of_to.
Qed.

Lemma string_of_uint_length (d : uint) :
  String.length (NilEmpty.string_of_uint d) = nb_digits d.
Proof. induction d; simpl; by f_equal. Qed.

Lemma nb_digits_iter_D0 (n : nat) (d : uint) :
  nb_digits (Nat.iter n D0 d) = n + nb_digits d.
Proof. induction n as [|n IH]; simpl; [done | by rewrite IH]. Qed.

Lemma fmt03d_width (i : nat) : 3 ≤ String.length (Py.fmt03d i).
Proof.
  unfold Py.fmt03d, Py.zero_pad.
  rewrite string_of_uint_length, nb_digits_iter_D0. lia.
Qed.

Lemma starts_with_sep_free (b x : string) :
  Py.split "/" b = [b] → posixpath.starts_with_sep (b +:+ "_" +:+ x) = false.
Proof.
  destruct b as [|c b]; [done|].
  rewrite string_app_cons. cbn [posixpath.starts_with_sep Py.split].
  unfold posixpath.sep.
  destruct (Ascii.eqb c "/") eqn:Hc; [|done].
  intros H. discriminate H.
Qed.

(** Joining to one directory keeps relative names apart. *)
Lemma join_inj (a p q : string) :
  posixpath.starts_with_sep p = false → posixpath.starts_with_sep q = false →
  posixpath.join a p = posixpath.join a q → p = q.
Proof.
  unfold posixpath.join. intros -> ->.
  destruct (_ || _)%bool; intros H.
  - by apply (inj (String.app a)) in H.
  - apply (inj (String.app a)) in H. by apply (inj (String.app "/")) in H.
Qed.

Lemma digits_free_of_slash (d : uint) :
  Py.split "/" ("_" +:+ NilEmpty.string_of_uint d +:+ ".npz")
  = ["_" +:+ NilEmpty.string_of_uint d +:+ ".npz"].
Proof.
  rewrite string_app_cons, string_app_nil_l.
  cbn [Py.split Ascii.eqb Bool.eqb].
  assert (Py.split "/" (NilEmpty.string_of_uint d +:+ ".npz")
          = [NilEmpty.string_of_uint d +:+ ".npz"]) as ->; [|done].
  induction d as [|d IH|d IH|d IH|d IH|d IH|d IH|d IH|d IH|d IH|d IH];
    [reflexivity|..];
    cbn [NilEmpty.string_of_uint]; rewrite string_app_cons;
    cbn [Py.split Ascii.eqb Bool.eqb]; by rewrite IH.
Qed.

(** A name built on a slash-free base is slash-free. *)
Lemma name_free_of_slash (b : string) (i : nat) :
  Py.split "/" b = [b] →
  Py.split "/" (b +:+ "_" +:+ Py.fmt03d i +:+ ".npz")
  = [b +:+ "_" +:+ Py.fmt03d i +:+ ".npz"].
Proof.
  intros Hb.
  destruct (split_app_free "/" b _ (digits_free_of_slash (Py.zero_pad 3 (Nat.to_uint i))))
    as (ws & x & Hs & Hst).
  unfold Py.fmt03d. rewrite Hst. rewrite Hb in Hs.
  destruct ws as [|w ws]; simplify_eq/=; [done|].
  by destruct ws.
Qed.

Lemma label_base_free_of_slash (fp : file_pair) :
  Py.split "/" (Plain.label_base fp) = [Plain.label_base fp].
Proof. unfold Plain.label_base, posixpath.basename, posixpath.sep. apply last_item_free. Qed.


(** *** The directory of a path below a directory *)

Lemma ends_with_sep_app (a : string) :
  posixpath.ends_with_sep a = true → ∃ s, a = s +:+ "/".
Proof.
  induction a as [|c a IH]; [done|].
  cbn [posixpath.ends_with_sep]. destruct a as [|c' a].
  - unfold posixpath.sep. intros ->%Ascii.eqb_eq. by exists "".
  - intros [s' ->]%IH. by exists (String c s').
Qed.

Lemma rstrip_sep_nonempty (h : string) :
  posixpath.all_sep h = false → posixpath.rstrip_sep h ≠ "".
Proof.
  destruct h as [|c h]; [done|]. intros Hh.
  cbn [posixpath.rstrip_sep]. by rewrite Hh.
Qed.

Lemma head_of_app_sep (s t : string) :
  posixpath.head_of (s +:+ String "/" t) ≠ "".
Proof.
  unfold posixpath.head_of, posixpath.sep. rewrite split_app_sep.
  destruct (Py.split "/" s) as [|w ws] eqn:Es; [by destruct (split_not_nil "/" s)|].
  destruct (Py.split "/" t) as [|w' ws'] eqn:Et; [by destruct (split_not_nil "/" t)|].
  assert (∀ x : string, x +:+ "/" ≠ "") as Hne.
  { intros x H%(f_equal String.length). rewrite string_length_app in H. simpl in H. lia. }
  destruct ws; apply Hne.
Qed.

Lemma dirname_app_sep (s t : string) :
  posixpath.dirname (s +:+ String "/" t) ≠ "".
Proof.
  unfold posixpath.dirname.
  destruct (posixpath.all_sep _) eqn:Hall; [apply head_of_app_sep|].
  by apply rstrip_sep_nonempty.
Qed.

(** Below a directory other than the empty string, a relative path has a
    directory other than the empty string. *)
Lemma dirname_join_nonempty (a p : string) :
  a ≠ "" → posixpath.starts_with_sep p = false →
  posixpath.dirname (posixpath.join a p) ≠ "".
Proof.
  intros Ha Hp. unfold posixpath.join. rewrite Hp.
  apply String.eqb_neq in Ha. rewrite Ha. simpl.
  destruct (posixpath.ends_with_sep a) eqn:He.
  - apply ends_with_sep_app in He as [s' ->].
    rewrite string_app_assoc. apply dirname_app_sep.
  - apply dirname_app_sep.
Qed.

(** Below the empty string, a slash-free name has the empty string as
    its directory. *)
Lemma dirname_join_empty (p : string) :
  Py.split "/" p = [p] → posixpath.dirname (posixpath.join "" p) = "".
Proof.
  intros Hp. unfold posixpath.join.
  destruct (posixpath.starts_with_sep p); simpl;
    unfold posixpath.dirname, posixpath.head_of, posixpath.sep;
    rewrite ?string_app_nil_l, Hp; done.
Qed.

(** *** [replace] against stripping a suffix *)

Lemma prefix_refl (p : string) : String.prefix p p = true.
Proof.
  induction p as [|c p IH]; simpl; [done|].
  by destruct (ascii_dec c c).
Qed.

Lemma delete_all_go_exhaust (pat s : string) : ∀ k,
  String.length s ≤ k → Py.delete_all_go pat k s = "".
Proof.
  induction s as [|c s IH]; intros k Hk; simpl in *; [done|].
  destruct k as [|k]; [lia|]. apply IH. lia.
Qed.

(** Where the pattern occurs at the end only, deleting every occurrence
    strips the suffix. *)
Lemma delete_all_strip (pat s : string) :
  nowhere_but_end pat s = true → Py.delete_all pat s = strip_suffix pat s.
Proof.
  unfold Py.delete_all.
  induction s as [|c s IH]; [done|].
  cbn [nowhere_but_end Py.delete_all_go strip_suffix].
  destruct (String.prefix pat (String c s)) eqn:Hpre.
  - intros Heq. rewrite Heq. apply String.eqb_eq in Heq.
    apply delete_all_go_exhaust. rewrite <- Heq. simpl. lia.
  - intros Hrest.
    destruct (String.eqb (String c s) pat) eqn:Heq.
    + apply String.eqb_eq in Heq. by rewrite <- Heq, prefix_refl in Hpre.
    + f_equal. by apply IH.
Qed.

(** Stripping a slash-free suffix touches the last component only. *)
Lemma split_strip (sep : ascii) (pat s : string) :
  Py.split sep pat = [pat] →
  ∃ ws x, Py.split sep s = ws ++ [x]
          ∧ Py.split sep (strip_suffix pat s) = ws ++ [strip_suffix pat x].
Proof.
  intros Hpat. induction s as [|c s (ws & x & Hs & Hst)].
  - by exists [], "".
  - cbn [strip_suffix].
    destruct (String.eqb (String c s) pat) eqn:Heq.
    + apply String.eqb_eq in Heq. subst pat. exists [], (String c s).
      split; [done|]. cbn [strip_suffix]. by rewrite String.eqb_refl.
    + cbn [Py.split]. destruct (Ascii.eqb c sep).
      * exists ("" :: ws), x. by rewrite Hs, Hst.
      * rewrite Hs, Hst. destruct ws as [|w ws]; simpl.
        -- exists [], (String c x). split; [done|].
           apply split_single_eq in Hs as ->.
           cbn [strip_suffix]. by rewrite Heq.
        -- by exists (String c w :: ws), x.
Qed.

Lemma replaced_label_name_spec (label : string) :
  nowhere_but_end ".nii.gz" label = true →
  replaced_label_name label = spec_label_base label.
Proof.
  intros Hclean.
  unfold replaced_label_name, spec_label_base, posixpath.basename, posixpath.sep.
  rewrite (delete_all_strip _ _ Hclean).
  destruct (split_strip "/" ".nii.gz" label eq_refl) as (ws & x & -> & ->).
  by rewrite !last_item_snoc.
Qed.

Lemma plain_label_base_eq (fp : file_pair) :
  Plain.label_base fp = replaced_label_name (fp_label fp).
Proof.
  unfold Plain.label_base, replaced_label_name, posixpath.basename, posixpath.sep.
  by rewrite last_item_free.
Qed.

(** ** The table of [np.unique] *)

Lemma compare_lt_le (x y : string) : String.compare x y = Lt → String.le x y.
Proof. unfold String.le, String.leb. by intros ->. Qed.

Lemma compare_refl (x : string) : String.compare x x = Eq.
Proof.
  induction x as [|c x IH]; simpl; [done|].
  unfold Ascii.compare. by rewrite N.compare_refl.
Qed.

Lemma compare_lt_irrefl (x : string) : String.compare x x ≠ Lt.
Proof. by rewrite compare_refl. Qed.

Lemma compare_lt_trans (x y z : string) :
  String.compare x y = Lt → String.compare y z = Lt → String.compare x z = Lt.
Proof.
  intros Hxy Hyz.
  assert (String.le x z) as Hxz.
  { trans y; by apply compare_lt_le. }
  unfold String.le, String.leb in Hxz.
  destruct (String.compare x z) eqn:E; [|done..].
  apply String.compare_eq_iff in E as ->.
  rewrite String.compare_antisym, Hyz in Hxy. done.
Qed.

Lemma compare_lt_neq (x y : string) : String.compare x y = Lt → String.eqb x y = false.
Proof.
  intros H. apply String.eqb_neq. intros ->. by apply compare_lt_irrefl in H.
Qed.

Lemma compare_gt_neq (x y : string) : String.compare x y = Gt → String.eqb x y = false.
Proof.
  intros H. apply String.eqb_neq. intros ->.
  by rewrite compare_refl in H.
Qed.

Lemma table_count_below (x : string) (T : list (string * nat)) :
  Forall (λ e, String.compare x e.1 = Lt) T → table_count x T = 0.
Proof.
  induction 1 as [|[y c] T Hy _ IH]; simpl in *; [done|].
  by rewrite (compare_lt_neq _ _ Hy).
Qed.

Lemma count_insert_increasing (x : string) (T : list (string * nat)) :
  increasing T → increasing (count_insert x T).
Proof.
  induction T as [|[y c] T IH]; simpl; [done|].
  intros [Hy HT]. destruct (String.compare x y) eqn:E; simpl.
  - done.
  - split_and!; [|done..]. constructor; [done|].
    eapply Forall_impl; [exact Hy|]. intros e He. by eapply compare_lt_trans.
  - split; [|by apply IH].
    assert (String.compare y x = Lt) as Hyx.
    { by rewrite String.compare_antisym, E. }
    clear IH HT E. induction Hy as [|[z d] T Hz HT' IH']; simpl.
    + by repeat constructor.
    + destruct (String.compare x z); repeat (constructor; [done|]); done.
Qed.

Lemma table_count_insert (p x : string) (T : list (string * nat)) :
  increasing T →
  table_count p (count_insert x T)
  = if String.eqb p x then S (table_count x T) else table_count p T.
Proof.
  induction T as [|[y c] T IH]; simpl.
  - intros _. by destruct (String.eqb p x).
  - intros [Hy HT]. destruct (String.compare x y) eqn:E; simpl.
    + apply String.compare_eq_iff in E as ->.
      rewrite String.eqb_refl. by destruct (String.eqb p y).
    + rewrite (compare_lt_neq _ _ E), (table_count_below x T); [done|].
      eapply Forall_impl; [exact Hy|]. intros e He. by eapply compare_lt_trans.
    + rewrite (compare_gt_neq _ _ E), (IH HT).
      destruct (String.eqb p y) eqn:Hpy; [|done].
      apply String.eqb_eq in Hpy as ->.
      by rewrite String.eqb_sym, (compare_gt_neq _ _ E).
Qed.

Lemma np_unique_counts_increasing (xs : list string) :
  increasing (np_unique_counts xs).
Proof.
  induction xs as [|x xs IH]; simpl; [done|]. by apply count_insert_increasing.
Qed.

Lemma count_insert_positive (x : string) (T : list (string * nat)) :
  Forall (λ e, 0 < e.2) T → Forall (λ e, 0 < e.2) (count_insert x T).
Proof.
  induction 1 as [|[y c] T Hc HT IH]; simpl.
  - repeat constructor.
  - destruct (String.compare x y); repeat constructor; simpl in *; (lia || done).
Qed.

Lemma np_unique_counts_positive (xs : list string) :
  Forall (λ e, 0 < e.2) (np_unique_counts xs).
Proof.
  induction xs as [|x xs IH]; simpl; [constructor|]. by apply count_insert_positive.
Qed.

(** The table counts occurrences. *)
Lemma table_count_unique (p : string) (xs : list string) :
  table_count p (np_unique_counts xs) = occurrences p xs.
Proof.
  unfold occurrences. induction xs as [|x xs IH]; simpl; [done|].
  rewrite table_count_insert by apply np_unique_counts_increasing.
  rewrite filter_cons. destruct (String.eqb p x) eqn:E.
  - apply String.eqb_eq in E as ->. rewrite decide_True by done. simpl.
    by rewrite IH.
  - apply String.eqb_neq in E. rewrite decide_False by done. exact IH.
Qed.

Lemma table_entry (p : string) (c : nat) (T : list (string * nat)) :
  increasing T → Forall (λ e, 0 < e.2) T →
  (p, c) ∈ T ↔ 0 < c ∧ table_count p T = c.
Proof.
  induction T as [|[y d] T IH]; simpl.
  - intros _ _. split; [by intros ?%elem_of_nil | lia].
  - intros [Hy HT] [Hd Hpos]%Forall_cons. simpl in Hd.
    rewrite elem_of_cons, (IH HT Hpos). split.
    + intros [[= -> ->]|[Hc Hp]].
      * by rewrite String.eqb_refl.
      * split; [done|]. destruct (String.eqb p y) eqn:E; [|done].
        apply String.eqb_eq in E as ->.
        rewrite table_count_below in Hp by done. lia.
    + intros [Hc Hp]. destruct (String.eqb p y) eqn:E.
      * apply String.eqb_eq in E as ->. left. by rewrite Hp.
      * by right.
Qed.

(** A prefix is count-complete exactly when the number of listed names
    with that prefix is [samples_per_file], neither less nor more. *)
Lemma count_complete_spec (samples_per_file : nat) (names : list string) (p : string) :
  p ∈ count_complete samples_per_file names
  ↔ 0 < samples_per_file
    ∧ occurrences p (archive_prefix <$> names) = samples_per_file.
Proof.
  unfold count_complete. rewrite <- table_count_unique.
  rewrite <- (table_entry p samples_per_file)
    by (apply np_unique_counts_increasing || apply np_unique_counts_positive).
  rewrite list_elem_of_fmap. split.
  - intros ([q c] & -> & [Hc Hin]%list_elem_of_filter). simpl in *. by subst c.
  - intros Hin. exists (p, samples_per_file). split; [done|].
    by apply list_elem_of_filter.
Qed.

(** With [samples_per_file = 0] the loop has nothing to walk. *)
Lemma count_complete_zero (names : list string) : count_complete 0 names = [].
Proof.
  apply elem_of_nil_inv. intros p [H _]%count_complete_spec. lia.
Qed.

(** [list(set(train_val_data) - set(valid_files))] holds the cases that
    are not in the list returned. *)
Lemma remaining_spec (train_val_data valid_files : list string) (c : string) :
  c ∈ Plain.remaining train_val_data valid_files
  ↔ c ∈ train_val_data ∧ c ∉ valid_files.
Proof.
  unfold Plain.remaining.
  by rewrite elem_of_elements, elem_of_difference, !elem_of_list_to_set.
Qed.

(** ** The two scripts share [resume_preprocessing] and [test_integrity] *)

Lemma outlier_validate_eq {tensor} (w : fs tensor) dest spf fuel j l :
  Outlier.validate w dest spf fuel j l = Plain.validate w dest spf fuel j l.
Proof. reflexivity. Qed.

Lemma outlier_resume_eq {tensor} (w : fs tensor) dest spf fuel :
  Outlier.resume_preprocessing w dest spf fuel = Plain.resume_preprocessing w dest spf fuel.
Proof. reflexivity. Qed.

Lemma outlier_test_integrity_eq {tensor} (w : fs tensor) d :
  Outlier.test_integrity w d = Plain.test_integrity w d.
Proof. reflexivity. Qed.

(** ** Termination of the validation loop *)

Section Termination.
Context {tensor : Type} (w : fs tensor) (dest : string) (spf : nat).

Lemma on_disk_length (p : string) (f : file tensor) :
  disk w !! p = Some f → String.length p ≤ longest_path w.
Proof.
  intros Hp. apply max_list_elem_of_le.
  apply list_elem_of_fmap. exists p. split; [done|].
  apply list_elem_of_fmap. exists (p, f). split; [done|].
  by apply elem_of_map_to_list.
Qed.

Lemma pending_next (j : nat) (l : list string) :
  pending w (S j) l ≤ pending w j l.
Proof.
  unfold pending. destruct (l !! j) as [x|] eqn:Hj.
  - rewrite (drop_S _ _ _ Hj). generalize (drop (S j) l). intros d. simpl. lia.
  - apply lookup_ge_None in Hj. rewrite (drop_ge l (S j)) by lia. simpl. lia.
Qed.

Lemma drop_delete_here (j : nat) (l : list string) :
  j < length l → drop (S j) (delete j l) = drop (S (S j)) l.
Proof.
  intros Hj.
  rewrite delete_take_drop, drop_app_ge by (rewrite length_take; lia).
  rewrite length_take, Nat.min_l by lia.
  replace (S j - j) with 1 by lia.
  rewrite drop_drop. f_equal. lia.
Qed.

Lemma pending_pop (j : nat) (l : list string) :
  j < length l → pending w (S j) (delete j l) ≤ pending w (S j) l.
Proof.
  intros Hj. unfold pending at 1. rewrite drop_delete_here by done.
  apply (pending_next (S j) l).
Qed.

Lemma validate_enough (n : nat) : ∀ (j : nat) (l : list string),
  pending w j l < n →
  ∃ r, ∀ k, Plain.validate w dest spf (n + k) j l = Some r.
Proof.
  induction n as [|n IH]; intros j l Hn; [lia|].
  simpl. destruct (l !! j) as [i|] eqn:Hj; [|by eexists].
  pose proof (lookup_lt_Some _ _ _ Hj) as Hlen.
  assert (slack w i + pending w (S j) l < S n) as Hn'.
  { unfold pending in *. rewrite (drop_S _ _ _ Hj) in Hn. exact Hn. }
  clear Hn.
  set (t := posixpath.join dest (i +:+ "_" +:+ Py.fmt03d (spf - 1) +:+ ".npz")).
  pose proof (test_file_longer dest i (spf - 1)) as Hlonger. fold t in Hlonger.
  unfold np_load. destruct (disk w !! t) as [[data|]|] eqn:Ht; [|by eexists..].
  apply on_disk_length in Ht.
  destruct (read_arrays data) as [?|?].
  - apply IH.
    assert (pending w (S j) (l ++ [t]) = pending w (S j) l + slack w t) as ->.
    { unfold pending. rewrite drop_app_le by lia.
      rewrite sum_list_with_app. simpl. lia. }
    unfold slack in *. lia.
  - apply IH. pose proof (pending_pop j l Hlen) as Hpop.
    unfold slack in *. lia.
Qed.

(** While every archive that opens also deserializes, each pass appends
    an entry, the index never catches up with the length, and the loop
    cannot end by returning: with an entry left to look at, whatever
    outcome it has is an exception. *)
Lemma validate_intact_never_returns (fuel : nat) : ∀ (j : nat) (l : list string) r,
  (∀ p data, disk w !! p = Some (Archive data) → ∃ s, read_arrays data = Ok s) →
  j < length l →
  Plain.validate w dest spf fuel j l = Some r →
  ∃ e, r = Raise e.
Proof.
  induction fuel as [|fuel IH]; intros j l r Hintact Hj; simpl; [done|].
  destruct (lookup_lt_is_Some_2 l j Hj) as [i ->].
  unfold np_load.
  destruct (disk w !! _) as [[data|]|] eqn:Ht; [|intros [= <-]; by eexists..].
  destruct (Hintact _ _ Ht) as [s ->].
  apply IH; [done|]. rewrite length_app. simpl. lia.
Qed.

End Termination.

(** C10. For every file system (the listing of the destination and the
    files on disk are finite maps) and every [samples_per_file], the
    validation loop of [resume_preprocessing] terminates, in both
    scripts: some amount of fuel makes the function produce an outcome
    (a returned list or a raised exception), and more fuel does not
    change it.  The loop appends to the list it walks, yet every
    appended entry is a path strictly longer than the entry it was
    probed for, and no path on disk is longer than [longest_path]. *)
Theorem resume_preprocessing_terminates {tensor : Type}
    (w : fs tensor) (destination : string) (samples_per_file : nat) :
  ∃ fuel outcome, ∀ k,
    Plain.resume_preprocessing w destination samples_per_file (fuel + k) = Some outcome
    ∧ Outlier.resume_preprocessing w destination samples_per_file (fuel + k) = Some outcome.
Proof.
  setoid_rewrite outlier_resume_eq.
  unfold Plain.resume_preprocessing.
  destruct (os_listdir w destination) as [names|e]; [|by exists 0; eexists].
  set (l := count_complete samples_per_file names).
  destruct (validate_enough w destination samples_per_file (S (pending w 0 l)) 0 l)
    as [r Hr]; [lia|].
  exists (S (pending w 0 l)).
  destruct r as [valid_files|e]; eexists; intros k; rewrite Hr; done.
Qed.

(** So on a disk without a corrupt archive, a destination in which some
    prefix is count-complete makes [resume_preprocessing] raise. *)
Lemma resume_raises_when_some_case_complete {tensor : Type} (w : fs tensor)
    (destination : string) (samples_per_file fuel : nat) (names : list string)
    (out : list line) (r : result (list string)) :
  listdir w !! destination = Some names →
  count_complete samples_per_file names ≠ [] →
  (∀ p data, disk w !! p = Some (Archive data) → ∃ s, read_arrays data = Ok s) →
  Plain.resume_preprocessing w destination samples_per_file fuel = Some (out, r) →
  ∃ e, r = Raise e.
Proof.
  intros Hdir Hsome Hintact. unfold Plain.resume_preprocessing, os_listdir.
  rewrite Hdir.
  destruct (Plain.validate _ _ _ _ _ _) as [r'|] eqn:Hv; [|done].
  apply validate_intact_never_returns in Hv as [e ->]; [|done|].
  - intros [= _ <-]. by eexists.
  - destruct (count_complete samples_per_file names); [done|simpl; lia].
Qed.

(** ** The trace of [__getitem__] in the plain script *)

Section PlainTrace.
Context {tensor rng : Type} (self : Plain.ResampleDataset tensor rng) (fp : file_pair).

Lemma written_app (a b : list (event tensor)) :
  written (a ++ b) = written a ++ written b.
Proof. apply omap_app. Qed.

Lemma length_draws (n : nat) : ∀ g,
  length (draws (Plain.transform self) fp n g) = n.
Proof.
  induction n as [|n IH]; intros g; simpl; [done|].
  destruct (Plain.transform self fp g) as [[x y] g']. simpl. by rewrite IH.
Qed.

(** What the events of a run of passes write, and how they use the lock. *)
Lemma written_passes (range : list nat) : ∀ ss : list (tensor * tensor),
  length ss = length range →
  written (concat (zip_with (sample_events self fp) range ss))
  = Plain.output_path self fp <$> range.
Proof.
  induction range as [|i range IH]; intros [|s ss] Hlen; simplify_eq/=; [done|].
  f_equal. by apply IH.
Qed.

Lemma locked_passes (range : list nat) : ∀ ss : list (tensor * tensor),
  forallb write_locked_mkdir_unlocked
    (under_lock false (concat (zip_with (sample_events self fp) range ss))) = true.
Proof.
  induction range as [|i range IH]; intros [|s ss]; simpl; [done..|].
  apply IH.
Qed.

Lemma sections_passes (range : list nat) : ∀ ss : list (tensor * tensor),
  length ss = length range →
  critical_sections (concat (zip_with (sample_events self fp) range ss)) = length range.
Proof.
  unfold critical_sections.
  induction range as [|i range IH]; intros [|s ss] Hlen; simplify_eq/=; [done|].
  f_equal. by apply IH.
Qed.

Lemma plain_dirname_nonempty (i : nat) :
  Plain.destination self ≠ "" →
  posixpath.dirname (Plain.output_path self fp i) ≠ "".
Proof.
  intros Hdest. apply dirname_join_nonempty; [done|].
  apply starts_with_sep_free, label_base_free_of_slash.
Qed.

Lemma plain_dirname_empty (i : nat) :
  Plain.destination self = "" →
  posixpath.dirname (Plain.output_path self fp i) = "".
Proof.
  intros Hdest. unfold Plain.output_path. rewrite Hdest.
  apply dirname_join_empty, name_free_of_slash, label_base_free_of_slash.
Qed.

(** With the empty string as destination a pass ends in [os.makedirs]:
    the transform has drawn, nothing is written. *)
Lemma plain_sample_no_destination (i : nat) (w : world tensor rng) :
  Plain.destination self = "" →
  Plain.sample self fp i w
  = (Raise (FileNotFoundError (errno2 "")),
     {| w_disk := w_disk w; w_rng := (Plain.transform self fp (w_rng w)).2;
        w_trace := w_trace w ++ [Transform fp] |}).
Proof.
  intros Hdest. unfold Plain.sample, call_transform, os_makedirs.
  destruct (Plain.transform self fp (w_rng w)) as [[x y] g].
  by rewrite (plain_dirname_empty i Hdest).
Qed.

Hypothesis Hdest : Plain.destination self ≠ "".

(** With any other destination a pass draws, creates the directory and
    writes under the lock. *)
Lemma plain_sample_eq (i : nat) (w : world tensor rng) :
  Plain.sample self fp i w
  = (Ok (Plain.transform self fp (w_rng w)).1,
     {| w_disk :=
          <[Plain.output_path self fp i :=
              Archive {| npz_input := Array (Plain.transform self fp (w_rng w)).1.1;
                         npz_label := Array (Plain.transform self fp (w_rng w)).1.2 |}]>
            (w_disk w);
        w_rng := (Plain.transform self fp (w_rng w)).2;
        w_trace :=
          w_trace w ++ sample_events self fp i (Plain.transform self fp (w_rng w)).1 |}).
Proof.
  unfold Plain.sample, call_transform, os_makedirs, sample_events.
  destruct (Plain.transform self fp (w_rng w)) as [[x y] g].
  pose proof (plain_dirname_nonempty i Hdest) as Hd.
  apply String.eqb_neq in Hd. rewrite Hd.
  unfold with_lock, np_savez_compressed, emit. simpl.
  by rewrite <- !app_assoc.
Qed.

Lemma plain_sample_trace (i : nat) (w : world tensor rng) :
  w_trace (Plain.sample self fp i w).2
  = w_trace w ++ sample_events self fp i (Plain.transform self fp (w_rng w)).1.
Proof. by rewrite plain_sample_eq. Qed.

Lemma plain_sample_rng (i : nat) (w : world tensor rng) :
  w_rng (Plain.sample self fp i w).2 = (Plain.transform self fp (w_rng w)).2.
Proof. by rewrite plain_sample_eq. Qed.

Lemma plain_loop_trace (range : list nat) : ∀ last (w : world tensor rng),
  w_trace (Plain.sample_loop self fp range last w).2
  = w_trace w ++
    concat (zip_with (sample_events self fp) range
              (draws (Plain.transform self) fp (length range) (w_rng w))).
Proof.
  induction range as [|i range IH]; intros last w; simpl.
  - by rewrite app_nil_r.
  - rewrite plain_sample_eq, IH. simpl.
    destruct (Plain.transform self fp (w_rng w)) as [[x' y'] g]. simpl.
    by rewrite <- app_assoc.
Qed.





End PlainTrace.

(** ** Claims on [__getitem__] of the plain script *)

Section PlainGetitem.
Context {tensor rng : Type} (self : Plain.ResampleDataset tensor rng).

Lemma plain_getitem_world (idx : nat) (fp : file_pair) (w : world tensor rng) :
  Plain.files self !! idx = Some fp →
  (Plain.getitem self idx w).2
  = (Plain.sample_loop self fp (seq 0 (Plain.samples_per_file self)) None w).2.
Proof.
  intros Hidx. unfold Plain.getitem. rewrite Hidx.
  by destruct (Plain.sample_loop _ _ _ _ _) as [[[s|]|e] w'].
Qed.

Lemma plain_getitem_trace (idx : nat) (fp : file_pair) (w : world tensor rng) :
  Plain.destination self ≠ "" →
  Plain.files self !! idx = Some fp →
  w_trace (Plain.getitem self idx w).2
  = w_trace w ++
    concat (zip_with (sample_events self fp) (seq 0 (Plain.samples_per_file self))
              (draws (Plain.transform self) fp (Plain.samples_per_file self) (w_rng w))).
Proof.
  intros Hdest Hidx. rewrite (plain_getitem_world idx fp w Hidx), plain_loop_trace; [|done].
  by rewrite length_seq.
Qed.


(** X9. With the empty string as destination and at least one sample
    to draw, a call of [__getitem__] of the plain script for a case of
    the work list ends in the [FileNotFoundError] of [os.makedirs('')]:
    the transform was called once, the lock was not taken and no file
    on disk has changed. *)
Theorem getitem_fails_without_destination (idx : nat) (fp : file_pair)
    (w : world tensor rng)
    (Hdest : Plain.destination self = "")
    (Hspf : 0 < Plain.samples_per_file self)
    (Hidx : Plain.files self !! idx = Some fp) :
  Plain.getitem self idx w
  = (Raise (FileNotFoundError (errno2 "")),
     {| w_disk := w_disk w; w_rng := (Plain.transform self fp (w_rng w)).2;
        w_trace := w_trace w ++ [Transform fp] |}).
Proof.
  unfold Plain.getitem. rewrite Hidx.
  destruct (Plain.samples_per_file self) as [|n]; [lia|].
  cbn [seq Plain.sample_loop].
  by rewrite (plain_sample_no_destination self fp 0 w Hdest).
Qed.


End PlainGetitem.

Lemma getitem_fails_without_destination_witness :
  Plain.getitem MoreFixtures.no_destination 0 Fixtures.fresh
  = (Raise (FileNotFoundError "[Errno 2] No such file or directory: ''"),
     {| w_disk := ∅; w_rng := 43; w_trace := [Transform Fixtures.case_a] |}).
Proof.
  refine (getitem_fails_without_destination MoreFixtures.no_destination 0 Fixtures.case_a
            Fixtures.fresh _ _ _).
  - reflexivity.
  - simpl. lia.
  - reflexivity.
Defined.


(** C9, as the code stands: the directory creation is outside the lock.
    In the trace of a call on the sample dataset the second event
    creates [out] while the lock is not held; the lock is taken only
    afterwards. *)
Lemma makedirs_outside_lock :
  under_lock false (w_trace (Plain.getitem Fixtures.plain_dataset 0 Fixtures.fresh).2) !! 1
  = Some (false, Makedirs "out")
  ∧ w_trace (Plain.getitem Fixtures.plain_dataset 0 Fixtures.fresh).2 !! 2 = Some Acquire.
Proof. split; vm_compute; reflexivity. Qed.

(** C9, amended.  The events a call of [__getitem__] adds for a case of
    the work list, with a destination other than the empty string, are,
    for each slot [i] of [0 .. samples_per_file - 1] in turn and
    nothing else: the draw of the transform, the creation of the
    parent directory of the slot's archive, the lock taken, the write
    of the draw to the slot's archive, the lock released.  So every
    archive write happens while the lock is held, every directory
    creation while it is not and before the lock is taken for that
    sample, and there is one critical section per sample, holding
    exactly that sample's write. *)
Theorem write_is_the_critical_section {tensor rng : Type}
    (self : Plain.ResampleDataset tensor rng) (idx : nat) (fp : file_pair)
    (w : world tensor rng)
    (Hdest : Plain.destination self ≠ "")
    (Hidx : Plain.files self !! idx = Some fp) :
  let tr := new_events w (Plain.getitem self idx w).2 in
  tr = concat (zip_with
                 (λ i s, [Transform fp;
                          Makedirs (posixpath.dirname (Plain.output_path self fp i));
                          Acquire;
                          Savez (Plain.output_path self fp i) s.1 s.2;
                          Release])
                 (seq 0 (Plain.samples_per_file self))
                 (draws (Plain.transform self) fp (Plain.samples_per_file self) (w_rng w)))
  ∧ forallb write_locked_mkdir_unlocked (under_lock false tr) = true
  ∧ critical_sections tr = Plain.samples_per_file self
  ∧ length (written tr) = Plain.samples_per_file self.
Proof.
  intros tr.
  assert (tr = concat (zip_with (sample_events self fp)
                         (seq 0 (Plain.samples_per_file self))
                         (draws (Plain.transform self) fp (Plain.samples_per_file self)
                            (w_rng w)))) as Htr.
  { unfold tr, new_events.
    by rewrite (plain_getitem_trace self idx fp w Hdest Hidx), drop_app_length. }
  assert (length (draws (Plain.transform self) fp (Plain.samples_per_file self) (w_rng w))
          = length (seq 0 (Plain.samples_per_file self))) as Hlen.
  { by rewrite length_draws, length_seq. }
  split_and!.
  - exact Htr.
  - rewrite Htr. apply locked_passes.
  - rewrite Htr, sections_passes, length_seq; done.
  - rewrite Htr, written_passes, length_fmap, length_seq; done.
Qed.

Lemma write_is_the_critical_section_witness :
  new_events Fixtures.fresh (Plain.getitem Fixtures.plain_dataset 0 Fixtures.fresh).2
  = [Transform Fixtures.case_a; Makedirs "out"; Acquire; Savez "out/a_000.npz" 42 142; Release;
     Transform Fixtures.case_a; Makedirs "out"; Acquire; Savez "out/a_001.npz" 43 143; Release].
Proof.
  refine (proj1 (write_is_the_critical_section Fixtures.plain_dataset 0 Fixtures.case_a
                   Fixtures.fresh _ eq_refl)).
  discriminate.
Defined.

(** ** [__getitem__] of the outlier script *)

Section OutlierGetitem.
Context {tensor rng : Type} (self : Outlier.ResampleDataset tensor rng) (fp : file_pair).

Lemma outlier_sample_written (i : nat) (w : world tensor rng) :
  ∃ persisted : bool,
    written (w_trace (Outlier.sample self fp i w).2)
    = written (w_trace w) ++ (if persisted then [Outlier.output_path self fp i] else []).
Proof.
  unfold Outlier.sample, call_transform, Outlier.rejected, os_makedirs.
  destruct (Outlier.transform self fp (w_rng w)) as [[x y] g].
  destruct (Outlier.outlier_detection_fn self) as [[detect|]|]; simpl.
  - destruct (detect x); simpl.
    + exists false. by rewrite !written_app, !app_nil_r.
    + destruct (String.eqb _ ""); simpl.
      * exists false. by rewrite !written_app, !app_nil_r.
      * exists true. rewrite !written_app. simpl. by rewrite !app_nil_r.
  - destruct (String.eqb _ ""); simpl.
    + exists false. by rewrite !written_app, !app_nil_r.
    + exists true. rewrite !written_app. simpl. by rewrite !app_nil_r.
  - exists false. by rewrite !written_app, !app_nil_r.
Qed.

(** The slots the loop persists are some of the slots of its range, in
    order: a rejected draw leaves a gap, an exception ends the loop. *)
Lemma outlier_loop_written (range : list nat) : ∀ last (w : world tensor rng),
  ∃ kept, kept `sublist_of` range
    ∧ written (w_trace (Outlier.sample_loop self fp range last w).2)
      = written (w_trace w) ++ (Outlier.output_path self fp <$> kept).
Proof.
  induction range as [|i range IH]; intros last w; simpl.
  - exists []. by rewrite app_nil_r.
  - destruct (outlier_sample_written i w) as [persisted Hw].
    destruct (Outlier.sample self fp i w) as [[s|e] w1]; simpl in Hw.
    + destruct (IH (Some s) w1) as (kept & Hsub & ->). rewrite Hw.
      destruct persisted.
      * exists (i :: kept). split; [by apply sublist_skip|].
        by rewrite <- app_assoc.
      * exists kept. split; [by apply sublist_cons|]. by rewrite app_nil_r.
    + simpl. rewrite Hw. destruct persisted.
      * exists [i]. split; [|done]. apply sublist_skip, sublist_nil_l.
      * exists []. split; [apply sublist_nil_l|done].
Qed.

End OutlierGetitem.

Lemma outlier_getitem_written {tensor rng : Type}
    (self : Outlier.ResampleDataset tensor rng) (idx : nat) (fp : file_pair)
    (w : world tensor rng) :
  Outlier.files self !! idx = Some fp →
  ∃ kept, kept `sublist_of` seq 0 (Outlier.samples_per_file self)
    ∧ written (w_trace (Outlier.getitem self idx w).2)
      = written (w_trace w) ++ (Outlier.output_path self fp <$> kept).
Proof.
  intros Hidx. unfold Outlier.getitem. rewrite Hidx.
  destruct (outlier_loop_written self fp (seq 0 (Outlier.samples_per_file self)) None w)
    as (kept & Hsub & Hw).
  exists kept. split; [done|].
  by destruct (Outlier.sample_loop _ _ _ _ _) as [[[s|]|e] w'].
Qed.

(** The constructor of the outlier script leaves the attribute unset,
    whatever it is handed. *)
Lemma outlier_init_unset {tensor rng : Type} read_split get_file_dict_nn set_determinism
    data_dir split_dir save_path transform fold spf seed resume filter
    (w : fs tensor) fuel out (self : Outlier.ResampleDataset tensor rng) (g : rng) :
  Outlier.init read_split get_file_dict_nn set_determinism data_dir split_dir save_path
    transform fold spf seed resume filter w fuel = Some (out, Ok (self, g)) →
  Outlier.outlier_detection_fn self = None.
Proof.
  unfold Outlier.init. destruct resume.
  - destruct (Outlier.resume_preprocessing w save_path spf fuel) as [[o [l|e]]|];
      [|done..]. by intros [= _ <- _].
  - by intros [= _ <- _].
Qed.

(** With the attribute unset, the first pass of the loop raises after
    its draw: nothing is written and no predicate is consulted. *)
Lemma outlier_getitem_unset {tensor rng : Type}
    (self : Outlier.ResampleDataset tensor rng) (idx : nat) (fp : file_pair)
    (w : world tensor rng) :
  Outlier.outlier_detection_fn self = None →
  Outlier.files self !! idx = Some fp →
  0 < Outlier.samples_per_file self →
  Outlier.getitem self idx w
  = (Raise (AttributeError "outlier_detection_fn"),
     (call_transform (Outlier.transform self) fp w).2).
Proof.
  intros Hattr Hidx Hspf. unfold Outlier.getitem. rewrite Hidx.
  destruct (Outlier.samples_per_file self) as [|n]; [lia|].
  cbn [seq Outlier.sample_loop]. unfold Outlier.sample, Outlier.rejected.
  destruct (call_transform _ _ _) as [[x y] w1]. by rewrite Hattr.
Qed.

(** C5, at a failing input.  Whatever predicate (or [None]) the
    constructor of the outlier script is handed, the first call of
    [__getitem__] on the dataset it builds raises [AttributeError] right
    after the first draw: no predicate is consulted, no archive is
    written, no later slot is reached. *)
Theorem outlier_getitem_raises_attribute_error (filter : option (nat → bool)) :
  match Fixtures.outlier_built filter with
  | Some (_, Ok (self, _)) =>
      let '(r, w) := Outlier.getitem self 0 Fixtures.fresh in
      r = Raise (AttributeError "outlier_detection_fn")
      ∧ w_trace w = [Transform Fixtures.case_a]
      ∧ w_disk w = ∅
  | _ => False
  end.
Proof. by vm_compute. Qed.

(** With the attribute bound, as no constructed instance has it, the
    loop does what is described: here the predicate rejects the draw of
    slot 0, and slot 1 alone is written. *)
Example outlier_gap_when_attribute_bound :
  let w := (Outlier.getitem (Fixtures.outlier_dataset (Some (λ x, bool_decide (x = 42))))
              0 Fixtures.fresh).2 in
  written (w_trace w) = ["out/a_001.npz"] ∧ detected (w_trace w) = [42; 43].
Proof. by vm_compute. Qed.

(** ** Archive names *)

(** C8, as the code stands: for the label [scan.nii.gz_v2.nii.gz] the
    file name with its suffix stripped is [scan.nii.gz_v2], while the
    archives are named after [scan_v2]. *)
Lemma label_base_not_suffix_stripped :
  spec_label_base (fp_label Fixtures.case_v2) = "scan.nii.gz_v2"
  ∧ Plain.label_base Fixtures.case_v2 = "scan_v2"
  ∧ written (w_trace (Plain.getitem Fixtures.plain_dataset 1 Fixtures.fresh).2)
    = ["out/scan_v2_000.npz"; "out/scan_v2_001.npz"].
Proof. by vm_compute. Qed.

(** C8, amended.  In both scripts every archive written for a case is
    [destination/{base}_{i:03d}.npz] with [i] a slot of
    [0 .. samples_per_file - 1] (all of them, in order, in the plain
    script with a destination other than the empty string; some of
    them, in order, in the outlier script), where [base] is the last
    slash-separated component of the label path after every occurrence
    of [.nii.gz] has been deleted from it.  It is what the outlier
    script calls [label_name] and what the plain script calls
    [label_base], whose [os.path.basename] of that component changes
    nothing.  The index reads back as the slot and is at least three
    characters wide.  [base] is free of slashes, and it is the label
    file name with its suffix stripped whenever [.nii.gz] occurs in the
    label path at its end only. *)
Theorem archive_names_both_scripts {tensor rng : Type}
    (p : Plain.ResampleDataset tensor rng) (o : Outlier.ResampleDataset tensor rng)
    (idx : nat) (fp : file_pair) (w : world tensor rng)
    (Hdest : Plain.destination p ≠ "")
    (Hp : Plain.files p !! idx = Some fp) (Ho : Outlier.files o !! idx = Some fp) :
  let base := replaced_label_name (fp_label fp) in
  Plain.label_base fp = base
  ∧ Outlier.label_name fp = base
  ∧ written (w_trace (Plain.getitem p idx w).2)
    = written (w_trace w) ++
      ((λ i, posixpath.join (Plain.destination p) (archive_name base i))
         <$> seq 0 (Plain.samples_per_file p))
  ∧ (∃ kept, kept `sublist_of` seq 0 (Outlier.samples_per_file o)
       ∧ written (w_trace (Outlier.getitem o idx w).2)
         = written (w_trace w) ++
           ((λ i, posixpath.join (Outlier.destination o) (archive_name base i)) <$> kept))
  ∧ (∀ i, Nat.of_uint <$> NilEmpty.uint_of_string (Py.fmt03d i) = Some i
          ∧ 3 ≤ String.length (Py.fmt03d i))
  ∧ Py.split "/" base = [base]
  ∧ (if nowhere_but_end ".nii.gz" (fp_label fp)
     then base = spec_label_base (fp_label fp) else True).
Proof.
  intros base. split_and!.
  - apply plain_label_base_eq.
  - done.
  - rewrite (plain_getitem_trace p idx fp w Hdest Hp), written_app, written_passes
      by (by rewrite length_draws, length_seq).
    f_equal. apply list_fmap_ext. intros _ i _.
    unfold Plain.output_path. by rewrite plain_label_base_eq.
  - apply (outlier_getitem_written o idx fp w Ho).
  - intros i. split; [apply fmt03d_parses | apply fmt03d_width].
  - unfold base. rewrite <- plain_label_base_eq. apply label_base_free_of_slash.
  - destruct (nowhere_but_end ".nii.gz" (fp_label fp)) eqn:Hclean; [|done].
    by apply replaced_label_name_spec.
Qed.

Lemma archive_names_both_scripts_witness :
  written (w_trace (Plain.getitem Fixtures.plain_dataset 1 Fixtures.fresh).2)
  = ["out/scan_v2_000.npz"; "out/scan_v2_001.npz"].
Proof.
  refine (proj1 (proj2 (proj2
    (archive_names_both_scripts Fixtures.plain_dataset (Fixtures.outlier_dataset None)
       1 Fixtures.case_v2 Fixtures.fresh _ eq_refl eq_refl)))).
  discriminate.
Defined.

(** ** [resume_preprocessing] on concrete directories *)

(** C1, at a failing input.  One case is complete and intact.  The loop
    appends the path it probed to the list it walks, reaches that entry,
    probes [out/out/a_000.npz_000.npz] and the [FileNotFoundError] of
    [np.load] leaves the constructor: no work list is built.  Where a
    later [pop] makes the loop stop before the appended entry, the list
    returned holds the path next to the prefix. *)
Theorem resume_with_completed_case_raises :
  Plain.init Fixtures.read_split Fixtures.get_file_dict_nn Fixtures.set_determinism
    "data" "splits.json" "out" Fixtures.transform 0 1 42 true Fixtures.one_complete 8
  = Some ([], Raise (FileNotFoundError
                       "[Errno 2] No such file or directory: 'out/out/a_000.npz_000.npz'"))
  ∧ Plain.resume_preprocessing Fixtures.intact_then_damaged "out" 1 8
    = Some ([PrintFound 2], Ok ["a"; "out/a_000.npz"]).
Proof. split; vm_compute; reflexivity. Qed.

(** C2, at a failing input.  Both prefixes are count-complete and
    neither final archive deserializes.  Removing [a] at index 0 moves
    [b] to index 0 while the loop goes on at index 1: the archive of [b]
    is never opened and [b] is returned as valid. *)
Theorem pop_skips_next_prefix :
  count_complete 1 ["a_000.npz"; "b_000.npz"] = ["a"; "b"]
  ∧ (np_load Fixtures.both_damaged "out/b_000.npz" ≫= read_arrays)
    = Raise (BadArray "label")
  ∧ Plain.resume_preprocessing Fixtures.both_damaged "out" 1 8
    = Some ([PrintFound 1], Ok ["b"]).
Proof. split_and!; vm_compute; reflexivity. Qed.




(** ** [test_integrity] *)

Section Verifier.
Context {tensor : Type} (w : fs tensor) (dir_path : string).

Lemma opens_exists (filename : string) :
  opens w dir_path filename = true →
  os_path_exists w (posixpath.join dir_path filename) = true.
Proof.
  unfold opens, np_load, os_path_exists.
  destruct (disk w !! _) as [f|]; [|done]. intros _.
  by apply bool_decide_eq_true.
Qed.

(** One file whose archive opens: its report, then the rest. *)
Lemma scan_cons_opens (filename : string) (rest : list string) :
  opens w dir_path filename = true →
  Plain.scan w dir_path (filename :: rest)
  = (report w dir_path filename ++ (Plain.scan w dir_path rest).1,
     (Plain.scan w dir_path rest).2).
Proof.
  intros Hopen. cbn [Plain.scan]. rewrite (opens_exists _ Hopen). simpl.
  unfold opens, report in *.
  destruct (np_load w _) as [data|]; [|done].
  destruct (read_arrays data); by destruct (Plain.scan w dir_path rest).
Qed.

Lemma scan_app_opens (before rest : list string) :
  Forall (λ f, opens w dir_path f = true) before →
  Plain.scan w dir_path (before ++ rest)
  = (reports w dir_path before ++ (Plain.scan w dir_path rest).1,
     (Plain.scan w dir_path rest).2).
Proof.
  induction 1 as [|f before Hf _ IH].
  - rewrite app_nil_l. by destruct (Plain.scan w dir_path rest).
  - rewrite <- app_comm_cons, (scan_cons_opens _ _ Hf), IH.
    unfold reports. rewrite fmap_cons. cbn [concat fst snd].
    by rewrite <- app_assoc.
Qed.

Lemma scan_missing (filename : string) (rest : list string) :
  disk w !! posixpath.join dir_path filename = None →
  Plain.scan w dir_path (filename :: rest)
  = ([], Raise (FileNotFoundError
                  ("File '" +:+ filename +:+ "' does not exist in directory."))).
Proof.
  intros Hgone. cbn [Plain.scan]. unfold os_path_exists. rewrite Hgone.
  rewrite bool_decide_eq_false_2; [done|]. by intros [? ?].
Qed.

(** When [np.load] opens every file listed, the scan returns normally
    with the reports of the files whose arrays do not deserialize. *)
Lemma test_integrity_all_open (names : list string) :
  listdir w !! dir_path = Some names →
  Forall (λ f, opens w dir_path f = true) names →
  Plain.test_integrity w dir_path = (reports w dir_path names, Ok ()).
Proof.
  intros Hdir Hopen. unfold Plain.test_integrity, os_listdir. rewrite Hdir.
  replace (Plain.scan w dir_path names) with (Plain.scan w dir_path (names ++ []))
    by (by rewrite app_nil_r).
  rewrite (scan_app_opens names [] Hopen). simpl. by rewrite app_nil_r.
Qed.

(** Let the scan reach a listed file whose archive opens and whose
    arrays fail to deserialize with [e].  Then [test_integrity] prints
    [e] and the file name and goes on with the files after it: what it
    prints next and how it ends are what the scan of those files prints
    and how that scan ends, so the failure itself raises nothing.  The
    copy of the function in the outlier script behaves the same.  When
    [np.load] opens every file after it as well, [test_integrity]
    returns normally, having printed the reports of the whole listing in
    order. *)
Theorem verifier_reports_and_continues (before rest : list string)
    (filename : string) (data : npz tensor) (e : exn)
    (Hdir : listdir w !! dir_path = Some (before ++ filename :: rest))
    (Hbefore : Forall (λ f, opens w dir_path f = true) before)
    (Hload : np_load w (posixpath.join dir_path filename) = Ok data)
    (Hbad : read_arrays data = Raise e) :
  Plain.test_integrity w dir_path
  = (reports w dir_path before
       ++ PrintError e :: PrintName filename :: (Plain.scan w dir_path rest).1,
     (Plain.scan w dir_path rest).2)
  ∧ Outlier.test_integrity w dir_path = Plain.test_integrity w dir_path
  ∧ (if forallb (opens w dir_path) rest
     then Plain.test_integrity w dir_path
          = (reports w dir_path (before ++ filename :: rest), Ok ())
     else True).
Proof.
  assert (opens w dir_path filename = true) as Hopen.
  { unfold opens. by rewrite Hload. }
  assert (report w dir_path filename = [PrintError e; PrintName filename]) as Hrep.
  { unfold report. by rewrite Hload, Hbad. }
  split_and!.
  - unfold Plain.test_integrity, os_listdir. rewrite Hdir.
    by rewrite (scan_app_opens before _ Hbefore), (scan_cons_opens _ _ Hopen), Hrep.
  - apply outlier_test_integrity_eq.
  - destruct (forallb (opens w dir_path) rest) eqn:Hrest; [|done].
    apply test_integrity_all_open; [done|].
    apply Forall_app. split; [done|]. constructor; [done|].
    apply Forall_forall. intros f Hf.
    rewrite forallb_forall in Hrest. apply Hrest. by apply list_elem_of_In.
Qed.

(** C7, amended.  When a listed file is gone at the time it is looked
    at, [test_integrity] raises a [FileNotFoundError] naming it, which is
    not the printed report of a deserialization failure, and the scan
    ends there: what was printed for the files before it stands, and the
    files after it are not looked at. *)
Theorem verifier_stops_at_missing_file (before rest : list string) (filename : string)
    (Hdir : listdir w !! dir_path = Some (before ++ filename :: rest))
    (Hopen : Forall (λ f, opens w dir_path f = true) before)
    (Hgone : disk w !! posixpath.join dir_path filename = None) :
  Plain.test_integrity w dir_path
  = (reports w dir_path before,
     Raise (FileNotFoundError ("File '" +:+ filename +:+ "' does not exist in directory."))).
Proof.
  unfold Plain.test_integrity, os_listdir. rewrite Hdir.
  rewrite (scan_app_opens before _ Hopen), (scan_missing _ _ Hgone). simpl.
  by rewrite app_nil_r.
Qed.

End Verifier.

Lemma verifier_reports_and_continues_witness :
  Plain.test_integrity Fixtures.both_damaged "out"
  = ([PrintError (BadArray "label"); PrintName "a_000.npz";
      PrintError (BadArray "label"); PrintName "b_000.npz"], Ok ()).
Proof.
  refine (proj1 (verifier_reports_and_continues Fixtures.both_damaged "out"
                   [] ["b_000.npz"] "a_000.npz"
                   {| npz_input := Array 1; npz_label := Corrupt |} (BadArray "label")
                   _ _ _ _)).
  - reflexivity.
  - constructor.
  - reflexivity.
  - reflexivity.
Defined.

(** C6, at a failing input.  The arrays of [a_000.npz] fail to
    deserialize, and the file is reported.  [b_000.npz] is no archive:
    [np.load], which is outside the [try], raises, the exception leaves
    [test_integrity], the name [b_000.npz] is never printed, and the
    damaged [c_000.npz] after it, which a scan of its own reports, is
    never looked at.  The copy of the function in the outlier script
    does the same. *)
Theorem verifier_raises_on_unreadable_archive :
  Plain.test_integrity MoreFixtures.damaged_then_garbage "out"
  = ([PrintError (BadArray "label"); PrintName "a_000.npz"],
     Raise (NotAnArchive "out/b_000.npz"))
  ∧ Outlier.test_integrity MoreFixtures.damaged_then_garbage "out"
    = ([PrintError (BadArray "label"); PrintName "a_000.npz"],
       Raise (NotAnArchive "out/b_000.npz"))
  ∧ Plain.scan MoreFixtures.damaged_then_garbage "out" ["c_000.npz"]
    = ([PrintError (BadArray "label"); PrintName "c_000.npz"], Ok ()).
Proof. split_and!; vm_compute; reflexivity. Qed.

(** C7, as the code stands: [a_000.npz] is listed and gone, and the
    damaged [b_000.npz] after it, which a scan of its own reports, is
    never looked at. *)
Lemma missing_file_halts_scan :
  Plain.test_integrity Fixtures.listed_but_gone "out"
  = ([], Raise (FileNotFoundError "File 'a_000.npz' does not exist in directory."))
  ∧ Plain.scan Fixtures.listed_but_gone "out" ["b_000.npz"]
    = ([PrintError (BadArray "label"); PrintName "b_000.npz"], Ok ()).
Proof. split; vm_compute; reflexivity. Qed.

Lemma verifier_stops_at_missing_file_witness :
  Plain.test_integrity Fixtures.listed_but_gone "out"
  = ([], Raise (FileNotFoundError "File 'a_000.npz' does not exist in directory.")).
Proof.
  refine (verifier_stops_at_missing_file Fixtures.listed_but_gone "out"
            [] ["b_000.npz"] "a_000.npz" _ _ _).
  - reflexivity.
  - constructor.
  - reflexivity.
Defined.


(** * More properties of the two scripts *)

(** ** The prefix of a listed name *)

Lemma concat_snoc (sep : string) (ws : list string) (x : string) :
  ws ≠ [] → String.concat sep (ws ++ [x]) = String.concat sep ws +:+ sep +:+ x.
Proof.
  induction ws as [|w ws IH]; [done|]. intros _.
  destruct ws as [|w' ws]; [done|].
  change ((w :: w' :: ws) ++ [x]) with (w :: w' :: (ws ++ [x])).
  rewrite !concat_cons2. change (w' :: ws ++ [x]) with ((w' :: ws) ++ [x]).
  rewrite IH by done. by rewrite !string_app_assoc.
Qed.

(** X1. What [resume_preprocessing] takes as the prefix of a listed
    name is all of the name before its last underscore: a name without
    an underscore has the empty prefix, and any other name is its
    prefix, an underscore, and a tail free of underscores. *)
Theorem archive_prefix_decompose (name : string) :
  (Py.split "_" name = [name] ∧ archive_prefix name = "")
  ∨ (∃ tail, Py.split "_" tail = [tail]
             ∧ name = archive_prefix name +:+ "_" +:+ tail).
Proof.
  unfold archive_prefix, Py.but_last.
  pose proof (split_components_free "_" name) as Hfree.
  pose proof (join_split "_" name) as Hjoin. unfold Py.join in *.
  destruct (exists_last (split_not_nil "_" name)) as (ws & x & E).
  rewrite E in *. rewrite removelast_last.
  apply Forall_app in Hfree as [_ [Hx _]%Forall_cons].
  destruct ws as [|w ws].
  - left. simpl in *. by subst x.
  - right. exists x. split; [done|].
    rewrite concat_snoc in Hjoin by done. by rewrite Hjoin.
Qed.

(** ** The count-complete prefixes *)

Lemma filter_keys_sorted (P : string * nat → Prop) `{∀ e, Decision (P e)}
    (T : list (string * nat)) :
  increasing T →
  StronglySorted (λ p q, String.compare p q = Lt) (filter P T).*1.
Proof.
  induction T as [|[y c] T IH]; simpl; [constructor|].
  intros [Hy HT]. rewrite filter_cons. destruct (decide (P (y, c))).
  - rewrite fmap_cons. constructor; [by apply IH|].
    apply Forall_fmap, Forall_forall. intros e [_ He]%list_elem_of_filter.
    rewrite Forall_forall in Hy. by apply Hy.
  - by apply IH.
Qed.

(** X2. The list [resume_preprocessing] starts from holds a prefix
    exactly when the number of listed names with that prefix equals
    [samples_per_file], which therefore is not 0; the list is in
    strictly increasing order of its strings, as [np.unique] leaves it,
    so no prefix is in it twice. *)
Theorem count_complete_exact_sorted (samples_per_file : nat) (names : list string)
    (p : string) :
  (p ∈ count_complete samples_per_file names
   ↔ 0 < samples_per_file
     ∧ occurrences p (archive_prefix <$> names) = samples_per_file)
  ∧ StronglySorted (λ p q, String.compare p q = Lt)
      (count_complete samples_per_file names)
  ∧ NoDup (count_complete samples_per_file names).
Proof.
  assert (StronglySorted (λ p q, String.compare p q = Lt)
            (count_complete samples_per_file names)) as Hsorted.
  { apply filter_keys_sorted, np_unique_counts_increasing. }
  split_and!; [apply count_complete_spec | done |].
  induction Hsorted as [|q l _ IH Hq]; constructor; [|done].
  intros Hin. rewrite Forall_forall in Hq.
  by apply (compare_lt_irrefl q), Hq.
Qed.

Lemma prefixes_of_one_case (base : string) (idxs : list nat) :
  archive_prefix <$> (archive_name base <$> idxs) = replicate (length idxs) base.
Proof.
  induction idxs as [|i idxs IH]; simpl; [done|].
  f_equal; [apply name_prefix | exact IH].
Qed.

Lemma np_unique_counts_replicate (n : nat) (b : string) :
  np_unique_counts (replicate (S n) b) = [(b, S n)].
Proof.
  induction n as [|n IH]; [done|].
  change (np_unique_counts (replicate (S (S n)) b))
    with (count_insert b (np_unique_counts (replicate (S n) b))).
  rewrite IH. simpl. by rewrite compare_refl.
Qed.

(** The archives of one case, exactly [samples_per_file] of them. *)
Lemma count_complete_one_case (base : string) (idxs : list nat)
    (samples_per_file : nat) :
  length idxs = samples_per_file → 0 < samples_per_file →
  count_complete samples_per_file (archive_name base <$> idxs) = [base].
Proof.
  intros Hlen Hpos. unfold count_complete. rewrite prefixes_of_one_case, Hlen.
  destruct samples_per_file as [|n]; [lia|].
  rewrite np_unique_counts_replicate, filter_cons, filter_nil. simpl.
  by rewrite decide_True.
Qed.

(** X3. A directory that lists the archives of one case only, named as
    [__getitem__] names them with whatever slot indices, has that case's
    base as its one count-complete prefix when it lists exactly
    [samples_per_file] of them, and no count-complete prefix when it
    lists fewer or more: the count is compared, the indices are not. *)
Theorem count_complete_of_one_case (base : string) (idxs : list nat)
    (samples_per_file : nat) :
  count_complete samples_per_file (archive_name base <$> idxs)
  = if decide (samples_per_file = length idxs ∧ 0 < samples_per_file)
    then [base] else [].
Proof.
  unfold count_complete. rewrite prefixes_of_one_case.
  destruct (length idxs) as [|n] eqn:Hlen.
  - rewrite decide_False by lia. done.
  - rewrite np_unique_counts_replicate, filter_cons, filter_nil. simpl.
    destruct (decide (S n = samples_per_file)) as [<-|Hne].
    + rewrite decide_True by lia. done.
    + rewrite decide_False by lia. done.
Qed.

(** ** Outcomes of [resume_preprocessing] *)

Section ResumeOutcomes.
Context {tensor : Type} (w : fs tensor) (destination : string) (samples_per_file : nat).

(** X4. When the destination exists and no prefix is listed exactly
    [samples_per_file] times (an empty directory, interrupted cases
    only, or [samples_per_file = 0]), [resume_preprocessing] prints
    that it found 0 valid files and returns the empty list, in both
    scripts, and does so whatever the files on disk are. *)
Theorem resume_nothing_complete (names : list string) (fuel : nat)
    (Hdir : listdir w !! destination = Some names)
    (Hnone : ∀ p, occurrences p (archive_prefix <$> names) ≠ samples_per_file
                  ∨ samples_per_file = 0) :
  Plain.resume_preprocessing w destination samples_per_file (S fuel)
  = Some ([PrintFound 0], Ok [])
  ∧ Outlier.resume_preprocessing w destination samples_per_file (S fuel)
    = Some ([PrintFound 0], Ok [])
  ∧ ∀ d : gmap string (file tensor),
      Plain.resume_preprocessing {| listdir := listdir w; disk := d |}
        destination samples_per_file (S fuel)
      = Some ([PrintFound 0], Ok [])
      ∧ Outlier.resume_preprocessing {| listdir := listdir w; disk := d |}
          destination samples_per_file (S fuel)
        = Some ([PrintFound 0], Ok []).
Proof.
  assert (count_complete samples_per_file names = []) as Hcc.
  { apply elem_of_nil_inv. intros p [Hpos Hocc]%count_complete_spec.
    destruct (Hnone p); [done | lia]. }
  assert (∀ d : gmap string (file tensor),
            Plain.resume_preprocessing {| listdir := listdir w; disk := d |}
              destination samples_per_file (S fuel)
            = Some ([PrintFound 0], Ok [])) as Hany.
  { intros d. unfold Plain.resume_preprocessing, os_listdir. simpl.
    by rewrite Hdir, Hcc. }
  assert (Plain.resume_preprocessing w destination samples_per_file (S fuel)
          = Some ([PrintFound 0], Ok [])) as H.
  { unfold Plain.resume_preprocessing, os_listdir. by rewrite Hdir, Hcc. }
  split_and!; [exact H | | ].
  - etrans; [apply outlier_resume_eq | exact H].
  - intros d. split; [apply Hany|].
    etrans; [apply outlier_resume_eq | apply Hany].
Qed.

Lemma delete_middle (pre : list string) (x : string) (rest : list string) :
  delete (length pre) (pre ++ x :: rest) = pre ++ rest.
Proof. induction pre as [|a pre IH]; simpl; [done | by rewrite IH]. Qed.

Lemma validate_damaged (n : nat) : ∀ (rest pre : list string) (k : nat),
  length rest ≤ n →
  Forall (λ i, reads_damaged w (probe destination samples_per_file i) = true) rest →
  Plain.validate w destination samples_per_file (S n + k) (length pre) (pre ++ rest)
  = Some (Ok (pre ++ odds rest)).
Proof.
  induction n as [|n IH]; intros rest pre k Hlen Hdam.
  - destruct rest; [|simpl in Hlen; lia]. simpl.
    by rewrite lookup_ge_None_2 by (rewrite length_app; simpl; lia).
  - destruct rest as [|x rest].
    { simpl. by rewrite lookup_ge_None_2 by (rewrite length_app; simpl; lia). }
    apply Forall_cons in Hdam as [Hx Hdam].
    change (S (S n) + k) with (S (S n + k)). cbn [Plain.validate].
    rewrite list_lookup_middle by done.
    unfold reads_damaged, probe in Hx.
    destruct (np_load w _) as [data|]; [|done].
    destruct (read_arrays data); [done|].
    rewrite delete_middle.
    destruct rest as [|y rest].
    + simpl. rewrite !app_nil_r. by rewrite lookup_ge_None_2 by lia.
    + apply Forall_cons in Hdam as [_ Hdam].
      replace (pre ++ y :: rest) with ((pre ++ [y]) ++ rest)
        by (by rewrite <- app_assoc).
      replace (S (length pre)) with (length (pre ++ [y]))
        by (rewrite length_app; simpl; lia).
      rewrite IH; [|simpl in Hlen; lia|done].
      simpl. by rewrite <- app_assoc.
Qed.

(** X5. When the final archive of every count-complete prefix opens and
    fails to deserialize, the loop removes the prefixes at positions 0,
    2, 4, ... of the sorted list and never looks at those at positions
    1, 3, 5, ...: what [resume_preprocessing] returns as valid is every
    second count-complete prefix, each of them damaged. *)
Theorem resume_all_damaged_keeps_every_second (names : list string) (k : nat)
    (Hdir : listdir w !! destination = Some names)
    (Hdam : Forall (λ i, reads_damaged w (probe destination samples_per_file i) = true)
              (count_complete samples_per_file names)) :
  let complete := count_complete samples_per_file names in
  Plain.resume_preprocessing w destination samples_per_file (S (length complete) + k)
  = Some ([PrintFound (length (odds complete))], Ok (odds complete)).
Proof.
  intros complete. unfold Plain.resume_preprocessing, os_listdir. rewrite Hdir.
  fold complete.
  pose proof (validate_damaged (length complete) complete [] k (le_n _) Hdam) as Hv.
  change (Plain.validate w destination samples_per_file (S (length complete) + k)
            0 complete = Some (Ok (odds complete))) in Hv.
  by rewrite Hv.
Qed.

Lemma sound_disk_lookup (p : string) (data : npz tensor) :
  sound_disk w = true → disk w !! p = Some (Archive data) →
  ∃ s, read_arrays data = Ok s.
Proof.
  unfold sound_disk. rewrite forallb_forall. intros Hall Hp.
  specialize (Hall (p, Archive data)). simpl in Hall.
  destruct (read_arrays data) as [s|e]; [by eexists|].
  discriminate Hall. apply list_elem_of_In. by apply elem_of_map_to_list.
Qed.

(** X6. When some prefix is count-complete and no archive on disk is
    damaged, [resume_preprocessing] does not return: it ends by raising
    an exception, since every validated archive adds an entry the loop
    then takes for a prefix. *)
Theorem resume_sound_disk_raises (names : list string)
    (Hdir : listdir w !! destination = Some names)
    (Hsome : count_complete samples_per_file names ≠ [])
    (Hsound : sound_disk w = true) :
  ∃ fuel e, ∀ k,
    Plain.resume_preprocessing w destination samples_per_file (fuel + k)
    = Some ([], Raise e).
Proof.
  set (l := count_complete samples_per_file names).
  destruct (validate_enough w destination samples_per_file (S (pending w 0 l)) 0 l)
    as [r Hr]; [lia|].
  assert (∃ e, r = Raise e) as [e ->].
  { eapply (validate_intact_never_returns w destination samples_per_file _ 0 l).
    - intros p data Hp. by eapply sound_disk_lookup.
    - unfold l. destruct (count_complete samples_per_file names); [done|simpl; lia].
    - exact (Hr 0). }
  exists (S (pending w 0 l)), e. intros k.
  unfold Plain.resume_preprocessing, os_listdir. rewrite Hdir. fold l.
  by rewrite Hr.
Qed.

(** X7. Completeness is decided by the count alone.  When the
    destination lists exactly [samples_per_file] archives of a case and
    the one of slot [samples_per_file - 1] is not on disk (the indices
    listed are others), [resume_preprocessing] does not demote the
    case: the [FileNotFoundError] of [np.load], raised outside the
    [try], leaves the function. *)
Theorem resume_last_slot_missing (base : string) (idxs : list nat) (fuel : nat)
    (Hdir : listdir w !! destination = Some (archive_name base <$> idxs))
    (Hlen : length idxs = samples_per_file)
    (Hpos : 0 < samples_per_file)
    (Hgone : disk w !! posixpath.join destination
                          (archive_name base (samples_per_file - 1)) = None) :
  Plain.resume_preprocessing w destination samples_per_file (S fuel)
  = Some ([], Raise (FileNotFoundError
                       (errno2 (posixpath.join destination
                                  (archive_name base (samples_per_file - 1)))))).
Proof.
  unfold Plain.resume_preprocessing, os_listdir. rewrite Hdir.
  rewrite count_complete_one_case by done.
  cbn [Plain.validate lookup list_lookup]. unfold np_load.
  unfold archive_name in Hgone. by rewrite Hgone.
Qed.

End ResumeOutcomes.

Lemma resume_nothing_complete_witness :
  Plain.resume_preprocessing MoreFixtures.empty_directory "out" 1 1
  = Some ([PrintFound 0], Ok []).
Proof.
  refine (proj1 (resume_nothing_complete MoreFixtures.empty_directory "out" 1 [] 0 _ _)).
  - reflexivity.
  - intros p. left. vm_compute. lia.
Defined.

Lemma resume_all_damaged_keeps_every_second_witness :
  Plain.resume_preprocessing Fixtures.both_damaged "out" 1 3
  = Some ([PrintFound 1], Ok ["b"]).
Proof.
  refine (resume_all_damaged_keeps_every_second Fixtures.both_damaged "out" 1
            ["a_000.npz"; "b_000.npz"] 0 _ _).
  - reflexivity.
  - repeat constructor.
Defined.

Lemma resume_sound_disk_raises_witness :
  ∃ fuel e, ∀ k,
    Plain.resume_preprocessing Fixtures.one_complete "out" 1 (fuel + k)
    = Some ([], Raise e).
Proof.
  refine (resume_sound_disk_raises Fixtures.one_complete "out" 1 ["a_000.npz"] _ _ _).
  - reflexivity.
  - vm_compute. discriminate.
  - vm_compute. reflexivity.
Defined.

Lemma resume_last_slot_missing_witness :
  Plain.resume_preprocessing MoreFixtures.wrong_indices "out" 2 1
  = Some ([], Raise (FileNotFoundError
                       "[Errno 2] No such file or directory: 'out/a_001.npz'")).
Proof.
  refine (resume_last_slot_missing MoreFixtures.wrong_indices "out" 2 "a" [0; 5] 0 _ _ _ _).
  - reflexivity.
  - reflexivity.
  - lia.
  - reflexivity.
Defined.

(** ** More on [__getitem__] of the plain script *)

Section PlainGetitemMore.
Context {tensor rng : Type} (self : Plain.ResampleDataset tensor rng) (fp : file_pair).

Lemma transformed_passes (range : list nat) : ∀ ss : list (tensor * tensor),
  length ss = length range →
  transformed (concat (zip_with (sample_events self fp) range ss))
  = replicate (length range) fp.
Proof.
  induction range as [|i range IH]; intros [|s ss] Hlen; simplify_eq/=; [done|].
  f_equal. by apply IH.
Qed.

Lemma plain_loop_result (Hdest : Plain.destination self ≠ "") (range : list nat) :
  ∀ last_seen (w : world tensor rng),
  let ss := draws (Plain.transform self) fp (length range) (w_rng w) in
  (Plain.sample_loop self fp range last_seen w).1
  = Ok (match last ss with Some s => Some s | None => last_seen end)
  ∧ w_rng (Plain.sample_loop self fp range last_seen w).2
    = rng_after (Plain.transform self) fp (length range) (w_rng w).
Proof.
  induction range as [|i range IH]; intros last_seen w; [done|].
  cbn [Plain.sample_loop length draws rng_after].
  rewrite (plain_sample_eq self fp Hdest i w).
  destruct (IH (Some (Plain.transform self fp (w_rng w)).1)
              {| w_disk :=
                   <[Plain.output_path self fp i :=
                       Archive {| npz_input := Array (Plain.transform self fp (w_rng w)).1.1;
                                  npz_label := Array (Plain.transform self fp (w_rng w)).1.2 |}]>
                     (w_disk w);
                 w_rng := (Plain.transform self fp (w_rng w)).2;
                 w_trace :=
                   w_trace w ++ sample_events self fp i (Plain.transform self fp (w_rng w)).1 |})
    as [IH1 IH2].
  rewrite IH1, IH2. simpl.
  destruct (Plain.transform self fp (w_rng w)) as [[x' y'] g]. simpl.
  split; [|done].
  rewrite last_cons.
  by destruct (last (draws (Plain.transform self) fp (length range) g)).
Qed.

(** X8. A call of [__getitem__] of the plain script for a case of the
    work list, with a destination other than the empty string, calls
    the transform exactly [samples_per_file] times, each time on the
    file pair of the case, and leaves the generator where that many
    draws leave it; it returns the last of the draws, and with
    [samples_per_file = 0], where there is none, it raises
    [UnboundLocalError]. *)
Theorem getitem_draws_and_returns_last (idx : nat) (w : world tensor rng)
    (Hdest : Plain.destination self ≠ "")
    (Hidx : Plain.files self !! idx = Some fp) :
  let n := Plain.samples_per_file self in
  let r := Plain.getitem self idx w in
  r.1 = returned (draws (Plain.transform self) fp n (w_rng w))
  ∧ w_rng r.2 = rng_after (Plain.transform self) fp n (w_rng w)
  ∧ transformed (new_events w r.2) = replicate n fp.
Proof.
  intros n r. unfold r, new_events.
  rewrite (plain_getitem_trace self idx fp w Hdest Hidx), drop_app_length.
  rewrite transformed_passes by (by rewrite length_draws, length_seq).
  rewrite length_seq.
  unfold Plain.getitem. rewrite Hidx.
  destruct (plain_loop_result Hdest (seq 0 n) None w) as [H1 H2].
  rewrite length_seq in H1, H2. fold n.
  destruct (Plain.sample_loop self fp (seq 0 n) None w) as [[[s|]|e] w'];
    simpl in *; unfold returned; rewrite H2;
    destruct (last (draws (Plain.transform self) fp n (w_rng w))); by simplify_eq.
Qed.

End PlainGetitemMore.

Lemma getitem_draws_and_returns_last_witness :
  (Plain.getitem Fixtures.plain_dataset 0 Fixtures.fresh).1 = Ok (43, 143).
Proof.
  refine (proj1 (getitem_draws_and_returns_last Fixtures.plain_dataset Fixtures.case_a
                   0 Fixtures.fresh _ eq_refl)).
  discriminate.
Defined.

(** X10. Two archives written to one destination have the same path
    only if they are the same slot of cases with the same label base:
    apart from cases that share their label base, no call overwrites
    what another wrote. *)
Theorem output_path_collides_iff {tensor rng : Type}
    (self : Plain.ResampleDataset tensor rng) (fp fp' : file_pair) (i j : nat) :
  Plain.output_path self fp i = Plain.output_path self fp' j
  ↔ Plain.label_base fp = Plain.label_base fp' ∧ i = j.
Proof.
  unfold Plain.output_path. split; [|by intros [-> ->]].
  intros H.
  apply join_inj in H;
    [|by apply starts_with_sep_free, label_base_free_of_slash..].
  assert (Plain.label_base fp = Plain.label_base fp') as Hbase.
  { rewrite <- (name_prefix (Plain.label_base fp) i), H. apply name_prefix. }
  split; [done|]. rewrite Hbase in H.
  apply (inj (String.app _)), (inj (String.app "_")) in H.
  by apply string_app_inv_r, fmt03d_inj in H.
Qed.

(** ** [__getitem__] of the outlier script on an instance whose attribute is bound *)

Section OutlierBound.
Context {tensor rng : Type} (self : Outlier.ResampleDataset tensor rng) (fp : file_pair)
        (filter : option (tensor → bool))
        (Hattr : Outlier.outlier_detection_fn self = Some filter).

Lemma detected_app (a b : list (event tensor)) :
  detected (a ++ b) = detected a ++ detected b.
Proof. apply omap_app. Qed.

Lemma consulted_cons (s : tensor * tensor) (ss : list (tensor * tensor)) :
  consulted filter (s :: ss) = consulted filter [s] ++ consulted filter ss.
Proof. by destruct filter. Qed.

Lemma outlier_dirname_nonempty (i : nat) :
  Outlier.destination self ≠ "" →
  posixpath.dirname (Outlier.output_path self fp i) ≠ "".
Proof.
  intros Hdest. apply dirname_join_nonempty; [done|].
  apply starts_with_sep_free. unfold Outlier.label_name. apply last_item_free.
Qed.

Lemma outlier_sample_bound (Hdest : Outlier.destination self ≠ "")
    (i : nat) (w : world tensor rng) :
  let s := (Outlier.transform self fp (w_rng w)).1 in
  (Outlier.sample self fp i w).1 = Ok s
  ∧ w_rng (Outlier.sample self fp i w).2 = (Outlier.transform self fp (w_rng w)).2
  ∧ ∃ tr, w_trace (Outlier.sample self fp i w).2 = w_trace w ++ tr
          ∧ written tr = (if persisted filter s.1
                          then [Outlier.output_path self fp i] else [])
          ∧ detected tr = consulted filter [s].
Proof.
  unfold Outlier.sample, call_transform, Outlier.rejected, os_makedirs. rewrite Hattr.
  pose proof (outlier_dirname_nonempty i Hdest) as Hd.
  apply String.eqb_neq in Hd.
  destruct (Outlier.transform self fp (w_rng w)) as [[x y] g].
  destruct filter as [detect|]; simpl; [destruct (detect x); simpl|].
  - split_and!; [done..|]. exists [Transform fp; Detect x].
    by rewrite <- !app_assoc.
  - rewrite Hd. simpl. split_and!; [done..|].
    eexists [Transform fp; Detect x; Makedirs _; Acquire; Savez _ x y; Release].
    by rewrite <- !app_assoc.
  - rewrite Hd. simpl. split_and!; [done..|].
    eexists [Transform fp; Makedirs _; Acquire; Savez _ x y; Release].
    by rewrite <- !app_assoc.
Qed.

Lemma outlier_loop_bound (Hdest : Outlier.destination self ≠ "") (n : nat) :
  ∀ (start : nat) last_seen (w : world tensor rng),
  let ss := draws (Outlier.transform self) fp n (w_rng w) in
  let r := Outlier.sample_loop self fp (seq start n) last_seen w in
  r.1 = Ok (match last ss with Some s => Some s | None => last_seen end)
  ∧ ∃ tr, w_trace r.2 = w_trace w ++ tr
          ∧ written tr = Outlier.output_path self fp <$> persisted_slots filter start ss
          ∧ detected tr = consulted filter ss.
Proof.
  induction n as [|n IH]; intros start last_seen w.
  - simpl. split; [done|]. exists []. split; [by rewrite app_nil_r|].
    by destruct filter.
  - cbn [seq Outlier.sample_loop draws].
    destruct (outlier_sample_bound Hdest start w) as (Hv & Hg & tr1 & Ht & Hw & Hd).
    destruct (Outlier.sample self fp start w) as [[s|e] w1]; [|done].
    simpl in Hv, Hg, Ht. injection Hv as ->.
    destruct (IH (S start) (Some (Outlier.transform self fp (w_rng w)).1) w1)
      as (Hr & tr & Ht' & Hw' & Hd').
    rewrite Hg in Hr, Hw', Hd'.
    destruct (Outlier.transform self fp (w_rng w)) as [[x y] g]. simpl in *.
    split.
    + rewrite Hr, last_cons.
      by destruct (last (draws (Outlier.transform self) fp n g)).
    + exists (tr1 ++ tr). split_and!.
      * by rewrite Ht', Ht, <- app_assoc.
      * rewrite written_app, Hw, Hw'. by destruct (persisted filter x).
      * rewrite detected_app, Hd, Hd'. by destruct filter.
Qed.

(** X11. On an instance of the outlier script whose attribute
    [outlier_detection_fn] is bound, to a predicate or to [None], and
    whose destination is not the empty string,
    [__getitem__] draws [samples_per_file] samples; a bound predicate is
    called once on the image of every draw, in order, and never when
    the attribute is [None]; the archives written are those of the
    slots whose draw is not rejected, under their own slot index, so a
    rejected draw leaves a gap and is not drawn again; the value
    returned is the last draw, rejected or not. *)
Theorem outlier_getitem_with_bound_attribute (idx : nat) (w : world tensor rng)
    (Hdest : Outlier.destination self ≠ "")
    (Hidx : Outlier.files self !! idx = Some fp) :
  let ss := draws (Outlier.transform self) fp (Outlier.samples_per_file self) (w_rng w) in
  let r := Outlier.getitem self idx w in
  written (new_events w r.2) = Outlier.output_path self fp <$> persisted_slots filter 0 ss
  ∧ detected (new_events w r.2) = consulted filter ss
  ∧ r.1 = returned ss.
Proof.
  intros ss r. unfold r, Outlier.getitem, new_events. rewrite Hidx.
  destruct (outlier_loop_bound Hdest (Outlier.samples_per_file self) 0 None w)
    as (Hr & tr & Ht & Hw & Hd). fold ss in Hr, Hw, Hd.
  destruct (Outlier.sample_loop _ _ _ _ _) as [[[s|]|e] w']; simpl in *;
    [..|done]; rewrite Ht, drop_app_length; split_and!; try done;
    unfold returned; destruct (last ss); by simplify_eq.
Qed.

End OutlierBound.

Lemma outlier_getitem_with_bound_attribute_witness :
  written (new_events Fixtures.fresh
             (Outlier.getitem (Fixtures.outlier_dataset (Some (λ x, bool_decide (x = 42))))
                0 Fixtures.fresh).2)
  = ["out/a_001.npz"].
Proof.
  refine (proj1 (outlier_getitem_with_bound_attribute
                   (Fixtures.outlier_dataset (Some (λ x, bool_decide (x = 42))))
                   Fixtures.case_a (Some (λ x, bool_decide (x = 42))) eq_refl
                   0 Fixtures.fresh _ eq_refl)).
  discriminate.
Defined.

(** X12. Every dataset the constructor of the outlier script returns,
    whatever predicate it was handed and with or without resume, fails
    on every index of its work list as soon as [samples_per_file] is
    positive: [__getitem__] raises [AttributeError] after one call of
    the transform, having consulted no predicate and written nothing. *)
Theorem outlier_constructed_dataset_raises {tensor rng : Type}
    (read_split : string → nat → split_data)
    (get_file_dict_nn : string → list string → string → list file_pair)
    (set_determinism : nat → rng)
    (data_dir split_dir save_path : string)
    (transform : file_pair → rng → tensor * tensor * rng)
    (fold samples_per_file seed : nat) (resume : bool)
    (filter : option (tensor → bool)) (w : fs tensor) (fuel : nat)
    (out : list line) (self : Outlier.ResampleDataset tensor rng) (g : rng)
    (idx : nat) (fp : file_pair) (wd : world tensor rng)
    (Hinit : Outlier.init read_split get_file_dict_nn set_determinism data_dir split_dir
               save_path transform fold samples_per_file seed resume filter w fuel
             = Some (out, Ok (self, g)))
    (Hidx : Outlier.files self !! idx = Some fp)
    (Hpos : 0 < samples_per_file) :
  let r := Outlier.getitem self idx wd in
  r.1 = Raise (AttributeError "outlier_detection_fn")
  ∧ new_events wd r.2 = [Transform fp]
  ∧ w_disk r.2 = w_disk wd.
Proof.
  intros r. unfold r.
  assert (Outlier.samples_per_file self = samples_per_file) as Hspf.
  { revert Hinit. unfold Outlier.init. destruct resume.
    - destruct (Outlier.resume_preprocessing w save_path samples_per_file fuel)
        as [[o [l|e]]|]; [|done..]. by intros [= _ <- _].
    - by intros [= _ <- _]. }
  rewrite (outlier_getitem_unset self idx fp wd); [|by eapply outlier_init_unset|done|lia].
  unfold call_transform, new_events.
  destruct (Outlier.transform self fp (w_rng wd)) as [[x y] g']. simpl.
  by rewrite drop_app_length.
Qed.

Lemma outlier_constructed_dataset_raises_witness :
  ∃ self,
    (Outlier.getitem self 0 Fixtures.fresh).1 = Raise (AttributeError "outlier_detection_fn").
Proof.
  eexists.
  refine (proj1 (outlier_constructed_dataset_raises Fixtures.read_split
                   Fixtures.get_file_dict_nn Fixtures.set_determinism
                   "data" "splits.json" "out" Fixtures.transform 0 2 42 false
                   (Some (λ _, true)) Fixtures.no_directory 0 _ _ _ 0 _ Fixtures.fresh
                   _ _ _)).
  - reflexivity.
  - reflexivity.
  - lia.
Defined.

(** ** More on [test_integrity] *)

Section VerifierMore.
Context {tensor : Type} (w : fs tensor) (dir_path : string).

Lemma scan_prints_only_damaged (names : list string) (f : string) :
  PrintName f ∈ (Plain.scan w dir_path names).1 →
  f ∈ names ∧ reads_damaged w (posixpath.join dir_path f) = true.
Proof.
  induction names as [|g names IH]; cbn [Plain.scan]; [by intros ?%elem_of_nil|].
  destruct (negb (os_path_exists w _)); [by intros ?%elem_of_nil|].
  destruct (np_load w (posixpath.join dir_path g)) as [data|e] eqn:Hload;
    [|by intros ?%elem_of_nil].
  destruct (read_arrays data) as [s|e] eqn:Hread.
  - intros [? ?]%IH. split; [by right | done].
  - destruct (Plain.scan w dir_path names) as [out r]. simpl in *.
    rewrite !elem_of_cons. intros [?|[[= ->]|Hin]]; [done|..].
    + split; [by left|]. unfold reads_damaged. by rewrite Hload, Hread.
    + destruct (IH Hin). split; [by right | done].
Qed.

(** X13. [test_integrity] raises no false alarm: every file name it
    prints is a listed name whose archive [np.load] opened and whose
    arrays failed to deserialize, also when the scan is cut short by an
    exception later on. *)
Theorem verifier_prints_only_damaged (f : string)
    (Hprinted : PrintName f ∈ (Plain.test_integrity w dir_path).1) :
  ∃ names, listdir w !! dir_path = Some names
           ∧ f ∈ names
           ∧ reads_damaged w (posixpath.join dir_path f) = true.
Proof.
  revert Hprinted. unfold Plain.test_integrity, os_listdir.
  destruct (listdir w !! dir_path) as [names|]; [|by intros ?%elem_of_nil].
  intros [? ?]%scan_prints_only_damaged. by exists names.
Qed.

Lemma scan_unreadable (filename : string) (rest : list string) :
  disk w !! posixpath.join dir_path filename = Some Garbage →
  Plain.scan w dir_path (filename :: rest)
  = ([], Raise (NotAnArchive (posixpath.join dir_path filename))).
Proof.
  intros Hg. cbn [Plain.scan]. unfold os_path_exists, np_load. rewrite Hg.
  by rewrite bool_decide_eq_true_2.
Qed.

(** X14. [np.load] is outside the [try]: when a listed file exists and
    is not an archive [np.load] can open, the exception of [np.load]
    leaves [test_integrity], in both scripts; the file is not reported
    by name and the files listed after it are not looked at. *)
Theorem verifier_stops_at_unreadable_file (before rest : list string) (filename : string)
    (Hdir : listdir w !! dir_path = Some (before ++ filename :: rest))
    (Hbefore : Forall (λ f, opens w dir_path f = true) before)
    (Hgarbage : disk w !! posixpath.join dir_path filename = Some Garbage) :
  Plain.test_integrity w dir_path
  = (reports w dir_path before,
     Raise (NotAnArchive (posixpath.join dir_path filename)))
  ∧ Outlier.test_integrity w dir_path = Plain.test_integrity w dir_path.
Proof.
  split; [|apply outlier_test_integrity_eq].
  unfold Plain.test_integrity, os_listdir. rewrite Hdir.
  rewrite (scan_app_opens w dir_path before _ Hbefore), (scan_unreadable _ _ Hgarbage).
  simpl. by rewrite app_nil_r.
Qed.

Lemma reports_intact (names : list string) :
  Forall (λ f, reads_intact w (posixpath.join dir_path f) = true) names →
  reports w dir_path names = []
  ∧ Forall (λ f, opens w dir_path f = true) names.
Proof.
  unfold reports. induction 1 as [|f names Hf _ [IH1 IH2]]; [done|].
  assert (report w dir_path f = [] ∧ opens w dir_path f = true) as [Hrep Hopen].
  { unfold reads_intact, report, opens in *.
    destruct (np_load w _) as [data|]; [|done]. by destruct (read_arrays data). }
  rewrite fmap_cons. cbn [concat]. rewrite Hrep, IH1. split; [done|]. by constructor.
Qed.

(** X15. On a directory whose listed files all open and deserialize,
    the empty directory among them, [test_integrity] prints nothing and
    returns normally. *)
Theorem verifier_silent_on_intact_directory (names : list string)
    (Hdir : listdir w !! dir_path = Some names)
    (Hintact : Forall (λ f, reads_intact w (posixpath.join dir_path f) = true) names) :
  Plain.test_integrity w dir_path = ([], Ok ()).
Proof.
  destruct (reports_intact names Hintact) as [Hrep Hopen].
  by rewrite (test_integrity_all_open w dir_path names Hdir Hopen), Hrep.
Qed.

End VerifierMore.

Lemma verifier_prints_only_damaged_witness :
  ∃ names, listdir Fixtures.both_damaged !! "out" = Some names
           ∧ "b_000.npz" ∈ names
           ∧ reads_damaged Fixtures.both_damaged "out/b_000.npz" = true.
Proof.
  refine (verifier_prints_only_damaged Fixtures.both_damaged "out" "b_000.npz" _).
  vm_compute. apply list_elem_of_In. simpl. tauto.
Defined.

Lemma verifier_stops_at_unreadable_file_witness :
  Plain.test_integrity MoreFixtures.garbage_first "out"
  = ([], Raise (NotAnArchive "out/a_000.npz")).
Proof.
  refine (proj1 (verifier_stops_at_unreadable_file MoreFixtures.garbage_first "out"
                   [] ["b_000.npz"] "a_000.npz" _ _ _)).
  - reflexivity.
  - constructor.
  - reflexivity.
Defined.

Lemma verifier_silent_on_intact_directory_witness :
  Plain.test_integrity MoreFixtures.all_intact "out" = ([], Ok ()).
Proof.
  refine (verifier_silent_on_intact_directory MoreFixtures.all_intact "out"
            ["a_000.npz"; "b_000.npz"] _ _).
  - reflexivity.
  - repeat constructor.
Defined.

(** ** The work list after resume *)

(** X16. The work list [__init__] builds under [resume=True] holds, in
    an order of its own and each once, the case identifiers of the
    split that are not in the list [resume_preprocessing] returned;
    identifiers the split lists twice are kept once.  Both scripts
    compute it the same way. *)
Theorem work_list_after_resume (train_val_data valid_files : list string) (c : string) :
  NoDup (Plain.remaining train_val_data valid_files)
  ∧ (c ∈ Plain.remaining train_val_data valid_files
     ↔ c ∈ train_val_data ∧ c ∉ valid_files)
  ∧ Outlier.remaining train_val_data valid_files
    = Plain.remaining train_val_data valid_files.
Proof.
  split_and!; [apply NoDup_elements | apply remaining_spec | done].
Qed.

Lemma count_complete_none (samples_per_file : nat) (names : list string) :
  (∀ p, occurrences p (archive_prefix <$> names) ≠ samples_per_file
        ∨ samples_per_file = 0) →
  count_complete samples_per_file names = [].
Proof.
  intros Hnone. apply elem_of_nil_inv. intros p [Hpos Hocc]%count_complete_spec.
  destruct (Hnone p); [done | lia].
Qed.

(** X17. When the destination exists and holds no count-complete
    prefix, constructing the dataset with [resume=True] succeeds,
    prints that 0 valid files were found, and resolves the files of the
    whole split, through the set: its work list holds every identifier
    of the split once. *)
Theorem init_resume_nothing_complete {tensor rng : Type}
    (read_split : string → nat → split_data)
    (get_file_dict_nn : string → list string → string → list file_pair)
    (set_determinism : nat → rng)
    (data_dir split_dir save_path : string)
    (transform : file_pair → rng → tensor * tensor * rng)
    (fold samples_per_file seed fuel : nat) (w : fs tensor) (names : list string)
    (Hdir : listdir w !! save_path = Some names)
    (Hnone : ∀ p, occurrences p (archive_prefix <$> names) ≠ samples_per_file
                  ∨ samples_per_file = 0) :
  let train_val_data :=
    train (read_split split_dir fold) ++ val (read_split split_dir fold) in
  let work := Plain.remaining train_val_data [] in
  Plain.init read_split get_file_dict_nn set_determinism data_dir split_dir save_path
    transform fold samples_per_file seed true w (S fuel)
  = Some ([PrintFound 0],
          Ok ({| Plain.transform := transform; Plain.destination := save_path;
                 Plain.root := data_dir; Plain.samples_per_file := samples_per_file;
                 Plain.files := get_file_dict_nn data_dir work ".nii.gz" |},
              set_determinism seed))
  ∧ NoDup work
  ∧ ∀ c, c ∈ work ↔ c ∈ train_val_data.
Proof.
  intros train_val_data work. split_and!.
  - unfold Plain.init, Plain.resume_preprocessing, os_listdir.
    by rewrite Hdir, (count_complete_none _ _ Hnone).
  - apply NoDup_elements.
  - intros c. unfold work. rewrite remaining_spec.
    split; [by intros [? _] | intros ?; split; [done | apply not_elem_of_nil]].
Qed.

Lemma init_resume_nothing_complete_witness :
  ∃ self, Plain.init Fixtures.read_split Fixtures.get_file_dict_nn
            Fixtures.set_determinism "data" "splits.json" "out" Fixtures.transform
            0 1 42 true MoreFixtures.empty_directory 1
          = Some ([PrintFound 0], Ok (self, 42)).
Proof.
  eexists.
  refine (proj1 (init_resume_nothing_complete Fixtures.read_split
                   Fixtures.get_file_dict_nn Fixtures.set_determinism
                   "data" "splits.json" "out" Fixtures.transform 0 1 42 0
                   MoreFixtures.empty_directory [] _ _)).
  - reflexivity.
  - intros p. left. vm_compute. lia.
Defined.

(** ** The driver loop of the outlier script *)

Section OutlierEpoch.
Context {tensor rng : Type} (self : Outlier.ResampleDataset tensor rng).

(** X18. On a dataset whose attribute [outlier_detection_fn] is unset,
    as the constructor leaves it, with a work list that is not empty and
    a positive [samples_per_file], the loop over the data loader ends at
    its first item: the [AttributeError] of [__getitem__] leaves it
    after one call of the transform, and no archive has been written. *)
Theorem outlier_epoch_fails_at_first_item (fp : file_pair) (w : world tensor rng)
    (Hattr : Outlier.outlier_detection_fn self = None)
    (Hfirst : Outlier.files self !! 0 = Some fp)
    (Hpos : 0 < Outlier.samples_per_file self) :
  let r := outlier_epoch self w in
  r.1 = Raise (AttributeError "outlier_detection_fn")
  ∧ new_events w r.2 = [Transform fp]
  ∧ w_disk r.2 = w_disk w.
Proof.
  intros r. unfold r, outlier_epoch, outlier_len.
  destruct (Outlier.files self) as [|fp' files] eqn:Hfiles; [done|].
  cbn [length seq outlier_fetch].
  rewrite (outlier_getitem_unset self 0 fp w Hattr); [|by rewrite Hfiles|done].
  unfold call_transform, new_events.
  destruct (Outlier.transform self fp (w_rng w)) as [[x y] g]. simpl.
  by rewrite drop_app_length.
Qed.




End OutlierEpoch.

Lemma outlier_epoch_fails_at_first_item_witness :
  (outlier_epoch
     {| Outlier.transform := Fixtures.transform; Outlier.destination := "out";
        Outlier.root := "data"; Outlier.samples_per_file := 2;
        Outlier.files := [Fixtures.case_a]; Outlier.outlier_detection_fn := None |}
     Fixtures.fresh).1
  = Raise (AttributeError "outlier_detection_fn").
Proof.
  refine (proj1 (outlier_epoch_fails_at_first_item _ Fixtures.case_a Fixtures.fresh _ _ _)).
  - reflexivity.
  - reflexivity.
  - simpl. lia.
Defined.

